(** * The event filter of the catalog's events page

    A shallow embedding of [packages/eventcatalog/pages/events.tsx]: the
    React state of the page, [handleFilterSelection], [getFilteredEvents],
    the effect that stores its result, [filtersApplied], the checkboxes of
    the filter form, [classNames] and [getStaticProps].

    JavaScript arrays are lists, strings are [string] (a sequence of code
    units below 256, the Latin-1 range, on which [toLowerCase] below agrees
    with [String.prototype.toLowerCase]), and array indices are [Z] because
    [indexOf] answers [-1] for an absent element. The module [Wide] has
    the engine on strings of UTF-16 code units, where lower-casing depends
    on what stands around a letter; [getFilteredEvents_widen] shows that the
    two engines agree on the strings of the Latin-1 range. *)

From Stdlib Require Import ZArith Ascii.
From stdpp Require Import base list strings pretty.

Local Open Scope Z_scope.

(** ** The JavaScript primitives the page uses *)

(** [String.prototype]: [toLowerCase] and [includes], on strings of code
    units below 256. There no letter is lower-cased by what stands around
    it and none grows, so that [toLowerCase] goes unit by unit;
    [toLowerCase_widen] relates it to the lower-casing of [Wide]. *)
Module Str.

(** The code units with a lower-case form: [A]..[Z], and the upper-case
    letters of Latin-1, [U+00C0]..[U+00DE] without the multiplication
    sign [U+00D7]. Lower-casing moves them up by 32 and keeps every other
    code unit. *)
Definition isUpperUnit (c : ascii) : bool :=
  let n := N_of_ascii c in
  ((65 <=? n) && (n <=? 90))%N
  || ((192 <=? n) && (n <=? 222) && negb (n =? 215))%N.

Definition lowerUnit (c : ascii) : ascii :=
  if isUpperUnit c then ascii_of_N (N_of_ascii c + 32) else c.

Fixpoint toLowerCase (s : string) : string :=
  match s with
  | EmptyString => EmptyString
  | String c s' => String (lowerUnit c) (toLowerCase s')
  end.

(** [s.startsWith(t)], the test [includes] repeats at every position. *)
Fixpoint startsWith (s t : string) {struct t} : bool :=
  match t, s with
  | EmptyString, _ => true
  | String _ _, EmptyString => false
  | String b t', String a s' => if Ascii.eqb a b then startsWith s' t' else false
  end.

(** [s.includes(t)]: [t] occurs in [s] at some position. *)
Fixpoint includes (s t : string) : bool :=
  startsWith s t
  || match s with
     | EmptyString => false
     | String _ s' => includes s' t
     end.

End Str.

(** [Array.prototype]: [indexOf], [some], [filter] and [concat], on arrays
    of strings where the comparison matters. *)
Module Arr.

(** [a.indexOf(x)] from position [i] on: the index of the first element
    strictly equal to [x], or [-1]. *)
Fixpoint indexOfFrom (i : Z) (a : list string) (x : string) : Z :=
  match a with
  | [] => -1
  | y :: a' => if String.eqb y x then i else indexOfFrom (i + 1) a' x
  end.

Definition indexOf (a : list string) (x : string) : Z := indexOfFrom 0 a x.

Definition some {A} (a : list A) (f : A -> bool) : bool := existsb f a.

Definition filter {A} (a : list A) (f : A -> bool) : list A := List.filter f a.

Definition concat {A} (a b : list A) : list A := a ++ b.

(** [a.join(sep)] on an array of strings. *)
Fixpoint join (a : list string) (sep : string) : string :=
  match a with
  | [] => EmptyString
  | [x] => x
  | x :: a' => x +:+ sep +:+ join a' sep
  end.

End Arr.

(** [Set] of strings: the elements in the order of their first insertion. *)
Module JsSet.

Definition add (s : list string) (x : string) : list string :=
  if bool_decide (x ∈ s) then s else s ++ [x].

(** [new Set(a)] *)
Definition ofArray (a : list string) : list string := fold_left add a [].

(** [[...s]] *)
Definition spread (s : list string) : list string := s.

End JsSet.

(** [ToBoolean] on the values the page tests for truthiness: a string is
    truthy when it is not empty, an array (an object) always is. *)
Inductive jsval : Type :=
  | VUndefined
  | VString (s : string)
  | VArray (a : list string).

Definition ToBoolean (v : jsval) : bool :=
  match v with
  | VUndefined => false
  | VString EmptyString => false
  | VString (String _ _) => true
  | VArray _ => true
  end.

(** ** The data model *)

(** The fields of [Event] (of [@eventcatalog/types]) that the page reads. *)
Record Event : Type := {
  name : string;
  domain : string;
  producerNames : list string;
  consumerNames : list string
}.

(** The object held by [useState({ services: [], domains: [] })]. *)
Record SelectedFilters : Type := {
  services : list string;
  domains : list string
}.

(** The four [useState] cells of [Page]; [Ev] is the type of the events. *)
Record PageState (Ev : Type) : Type := {
  selectedFilters : SelectedFilters;
  showMermaidDiagrams : bool;
  eventsToRender : list Ev;
  searchFilter : string
}.

Arguments selectedFilters {Ev} _.
Arguments showMermaidDiagrams {Ev} _.
Arguments eventsToRender {Ev} _.
Arguments searchFilter {Ev} _.

(** The state of the first render. *)
Definition initialState {Ev} (events : list Ev) : PageState Ev :=
  {| selectedFilters := {| services := []; domains := [] |};
     showMermaidDiagrams := false;
     eventsToRender := events;
     searchFilter := EmptyString |}.

(** ** [handleFilterSelection] *)

(** The [id] of a filter section, the key into [selectedFilters]. *)
Inductive FilterType : Type := FServices | FDomains.

Definition getFilter (f : SelectedFilters) (type : FilterType) : list string :=
  match type with
  | FServices => services f
  | FDomains => domains f
  end.

(** [{ ...selectedFilters, [type]: newFilters }] *)
Definition setFilter (f : SelectedFilters) (type : FilterType)
    (newFilters : list string) : SelectedFilters :=
  match type with
  | FServices => {| services := newFilters; domains := domains f |}
  | FDomains => {| services := services f; domains := newFilters |}
  end.

Definition setSelectedFilters {Ev} (st : PageState Ev) (f : SelectedFilters)
    : PageState Ev :=
  {| selectedFilters := f;
     showMermaidDiagrams := showMermaidDiagrams st;
     eventsToRender := eventsToRender st;
     searchFilter := searchFilter st |}.

Definition setSearchFilter {Ev} (st : PageState Ev) (s : string) : PageState Ev :=
  {| selectedFilters := selectedFilters st;
     showMermaidDiagrams := showMermaidDiagrams st;
     eventsToRender := eventsToRender st;
     searchFilter := s |}.

(** [handleFilterSelection(option, type, event)], with [value] for
    [option.value] and [checked] for [event.target.checked]; the
    [console.log] of the first line leaves the state alone. *)
Definition handleFilterSelection {Ev} (value : string) (type : FilterType)
    (checked : bool) (st : PageState Ev) : PageState Ev :=
  if checked then
    let newFilters := Arr.concat (getFilter (selectedFilters st) type) [value] in
    setSelectedFilters st (setFilter (selectedFilters st) type newFilters)
  else
    let newFilters :=
      Arr.filter (getFilter (selectedFilters st) type)
                 (fun v => negb (String.eqb v value)) in
    setSelectedFilters st (setFilter (selectedFilters st) type newFilters).

(** ** [getFilteredEvents] *)

(** The callback of the first pass. *)
Definition serviceCallback (serviceFilters : list string) (event : Event) : bool :=
  let hasConsumersFromFilters :=
    Arr.some (consumerNames event)
             (fun consumerId => -1 <? Arr.indexOf serviceFilters consumerId) in
  let hasProducersFromFilters :=
    Arr.some (producerNames event)
             (fun producerId => -1 <? Arr.indexOf serviceFilters producerId) in
  hasConsumersFromFilters || hasProducersFromFilters.

(** The callback of the second pass. *)
Definition domainCallback (domainFilters : list string) (event : Event) : bool :=
  -1 <? Arr.indexOf domainFilters (domain event).

(** The callback of the third pass. *)
Definition searchCallback (searchFilter : string) (event : Event) : bool :=
  Str.includes (Str.toLowerCase (name event)) (Str.toLowerCase searchFilter).

(** The guard of the first line:
    [!selectedFilters.services && !searchFilter && !selectedFilters.domains]. *)
Definition earlyReturnGuard {Ev} (st : PageState Ev) : bool :=
  negb (ToBoolean (VArray (services (selectedFilters st))))
  && negb (ToBoolean (VString (searchFilter st)))
  && negb (ToBoolean (VArray (domains (selectedFilters st)))).

Definition servicePass (st : PageState Event) (filteredEvents : list Event)
    : list Event :=
  if 0 <? Z.of_nat (length (services (selectedFilters st)))
  then Arr.filter filteredEvents (serviceCallback (services (selectedFilters st)))
  else filteredEvents.

Definition domainPass (st : PageState Event) (filteredEvents : list Event)
    : list Event :=
  if 0 <? Z.of_nat (length (domains (selectedFilters st)))
  then Arr.filter filteredEvents (domainCallback (domains (selectedFilters st)))
  else filteredEvents.

Definition searchPass (st : PageState Event) (filteredEvents : list Event)
    : list Event :=
  if ToBoolean (VString (searchFilter st))
  then Arr.filter filteredEvents (searchCallback (searchFilter st))
  else filteredEvents.

(** The body after the first line: the three passes in order. *)
Definition filterPasses (events : list Event) (st : PageState Event) : list Event :=
  let filteredEvents := events in
  let filteredEvents := servicePass st filteredEvents in
  let filteredEvents := domainPass st filteredEvents in
  let filteredEvents := searchPass st filteredEvents in
  filteredEvents.

Definition getFilteredEvents (events : list Event) (st : PageState Event)
    : list Event :=
  if earlyReturnGuard st then events else filterPasses events st.

(** [filtersApplied = !!searchFilter || selectedFilters.services.length > 0] *)
Definition filtersApplied {Ev} (st : PageState Ev) : bool :=
  ToBoolean (VString (searchFilter st))
  || (0 <? Z.of_nat (length (services (selectedFilters st)))).

(** ** The scenario of the specification *)

Definition OrderCreated : Event :=
  {| name := "OrderCreated"; domain := "Orders";
     producerNames := ["OrderService"]; consumerNames := ["BillingService"] |}.

Definition OrderShipped : Event :=
  {| name := "OrderShipped"; domain := "Shipping";
     producerNames := ["ShippingService"]; consumerNames := [] |}.

Definition catalog : list Event := [OrderCreated; OrderShipped].

(** A state with the given filters and the other cells as on first render. *)
Definition stateOf (events : list Event) (svcs doms : list string) (text : string)
    : PageState Event :=
  {| selectedFilters := {| services := svcs; domains := doms |};
     showMermaidDiagrams := false;
     eventsToRender := events;
     searchFilter := text |}.

(** ** The same function on untyped events

    TypeScript's [Event] promises the four fields; at run time an event is
    an object on which any of them may be missing. Calling a method on a
    missing field throws a [TypeError], which [filter] lets through. *)

Inductive Thrown : Type := TypeError.

Definition Completion (A : Type) : Type := (Thrown + A)%type.

Definition ret {A} (x : A) : Completion A := inr x.

Definition bind {A B} (c : Completion A) (k : A -> Completion B) : Completion B :=
  match c with
  | inl t => inl t
  | inr x => k x
  end.

Notation "x <~ c ;; k" := (bind c (fun x => k))
  (at level 100, c at next level, right associativity).

Record RawEvent : Type := {
  rawName : option string;
  rawDomain : option string;
  rawProducerNames : option (list string);
  rawConsumerNames : option (list string)
}.

(** The receiver of a method call: [undefined.m(...)] throws. *)
Definition receiver {A} (field : option A) : Completion A :=
  match field with
  | Some x => ret x
  | None => inl TypeError
  end.

(** [a.filter(f)] with a callback that may throw: the elements are visited
    in order and the first exception ends the call. *)
Fixpoint filterThrowing {A} (a : list A) (f : A -> Completion bool)
    : Completion (list A) :=
  match a with
  | [] => ret []
  | x :: a' =>
      keep <~ f x ;;
      rest <~ filterThrowing a' f ;;
      ret (if keep then x :: rest else rest)
  end.

Definition serviceCallbackJs (serviceFilters : list string) (event : RawEvent)
    : Completion bool :=
  consumers <~ receiver (rawConsumerNames event) ;;
  let hasConsumersFromFilters :=
    Arr.some consumers
             (fun consumerId => -1 <? Arr.indexOf serviceFilters consumerId) in
  producers <~ receiver (rawProducerNames event) ;;
  let hasProducersFromFilters :=
    Arr.some producers
             (fun producerId => -1 <? Arr.indexOf serviceFilters producerId) in
  ret (hasConsumersFromFilters || hasProducersFromFilters).

(** [indexOf(undefined)] on an array of strings finds nothing. *)
Definition domainCallbackJs (domainFilters : list string) (event : RawEvent)
    : Completion bool :=
  ret (-1 <? match rawDomain event with
             | Some d => Arr.indexOf domainFilters d
             | None => -1
             end).

Definition searchCallbackJs (searchFilter : string) (event : RawEvent)
    : Completion bool :=
  n <~ receiver (rawName event) ;;
  ret (Str.includes (Str.toLowerCase n) (Str.toLowerCase searchFilter)).

Definition getFilteredEventsJs (events : list RawEvent) (st : PageState RawEvent)
    : Completion (list RawEvent) :=
  if earlyReturnGuard st then ret events
  else
    let filteredEvents := events in
    filteredEvents <~
      (if 0 <? Z.of_nat (length (services (selectedFilters st)))
       then filterThrowing filteredEvents
                           (serviceCallbackJs (services (selectedFilters st)))
       else ret filteredEvents) ;;
    filteredEvents <~
      (if 0 <? Z.of_nat (length (domains (selectedFilters st)))
       then filterThrowing filteredEvents
                           (domainCallbackJs (domains (selectedFilters st)))
       else ret filteredEvents) ;;
    filteredEvents <~
      (if ToBoolean (VString (searchFilter st))
       then filterThrowing filteredEvents (searchCallbackJs (searchFilter st))
       else ret filteredEvents) ;;
    ret filteredEvents.

(** A well-formed event has a name, a domain and both lists. *)
Definition wellFormed (event : RawEvent) : Prop :=
  is_Some (rawName event) /\ is_Some (rawDomain event)
  /\ is_Some (rawProducerNames event) /\ is_Some (rawConsumerNames event).

Definition toRaw (event : Event) : RawEvent :=
  {| rawName := Some (name event);
     rawDomain := Some (domain event);
     rawProducerNames := Some (producerNames event);
     rawConsumerNames := Some (consumerNames event) |}.

(** An event whose [consumerNames] is missing. *)
Definition orphan : RawEvent :=
  {| rawName := Some "Orphan"; rawDomain := Some "Orders";
     rawProducerNames := Some ["OrderService"]; rawConsumerNames := None |}.

(** ** The properties of an event that the filters test *)

Definition inSelectedServices (st : PageState Event) (e : Event) : Prop :=
  (exists p, p ∈ producerNames e /\ p ∈ services (selectedFilters st))
  \/ (exists c, c ∈ consumerNames e /\ c ∈ services (selectedFilters st)).

Definition inSelectedDomains (st : PageState Event) (e : Event) : Prop :=
  domain e ∈ domains (selectedFilters st).

(** The lower-cased name contains the lower-cased search text. *)
Definition matchesSearch (st : PageState Event) (e : Event) : Prop :=
  exists pre post,
    Str.toLowerCase (name e) = pre +:+ Str.toLowerCase (searchFilter st) +:+ post.

(** No dimension constrains. *)
Definition unconstrained {Ev} (st : PageState Ev) : Prop :=
  services (selectedFilters st) = []
  /\ domains (selectedFilters st) = []
  /\ searchFilter st = EmptyString.

(** ** Strings beyond Latin-1

    A JavaScript string is a sequence of UTF-16 code units, and
    [toLowerCase] is not a map of single units there: a capital sigma at the
    end of a word becomes a final sigma, and the capital I with a dot
    becomes two units. [Wide] has the engine on such strings. Its tables
    hold Basic Latin, Latin-1, the Greek letters from alpha to omega, the
    dotted and the dotless I and the combining marks; every other code unit
    is taken to have no case. *)
Module Wide.

Local Open Scope N_scope.

Definition jsstring : Type := list N.

(** The capitals whose small letter is 32 further on: [A]..[Z], the
    capitals of Latin-1, and the Greek ones, [U+0391]..[U+03A1] and
    [U+03A3]..[U+03A9]. *)
Definition isCapital (u : N) : bool :=
  ((65 <=? u) && (u <=? 90))
  || ((192 <=? u) && (u <=? 222) && negb (u =? 215))
  || ((913 <=? u) && (u <=? 929))
  || ((931 <=? u) && (u <=? 937)).

(** The lower-case mapping of one code unit, whatever stands around it;
    [U+0130] gives [i] and a combining dot. *)
Definition lowerOf (u : N) : jsstring :=
  if isCapital u then [u + 32]
  else if u =? 304 then [105; 775]
  else [u].

(** The property [Cased]. *)
Definition cased (u : N) : bool :=
  ((65 <=? u) && (u <=? 90)) || ((97 <=? u) && (u <=? 122))
  || (u =? 170) || (u =? 181) || (u =? 186)
  || ((192 <=? u) && (u <=? 255) && negb (u =? 215) && negb (u =? 247))
  || (u =? 304) || (u =? 305)
  || ((913 <=? u) && (u <=? 929)) || ((931 <=? u) && (u <=? 937))
  || ((945 <=? u) && (u <=? 969)).

(** The property [Case_Ignorable]. *)
Definition caseIgnorable (u : N) : bool :=
  (u =? 39) || (u =? 46) || (u =? 58) || (u =? 94) || (u =? 96)
  || (u =? 168) || (u =? 173) || (u =? 175) || (u =? 180) || (u =? 183)
  || (u =? 184)
  || ((768 <=? u) && (u <=? 879)).

(** What follows is any number of case-ignorable units and then a cased
    one. *)
Fixpoint followedByCased (rest : jsstring) : bool :=
  match rest with
  | [] => false
  | u :: rest' => cased u || (caseIgnorable u && followedByCased rest')
  end.

(** Lower-casing from a position on; [afterCased] says that a cased unit
    and then any number of case-ignorable ones stand before it. A capital
    sigma [U+03A3] in that place with no cased unit following becomes the
    final sigma [U+03C2]. *)
Fixpoint lowerFrom (afterCased : bool) (s : jsstring) : jsstring :=
  match s with
  | [] => []
  | u :: rest =>
      (if (u =? 931) && afterCased && negb (followedByCased rest)
       then [962]
       else lowerOf u)
      ++ lowerFrom (cased u || (caseIgnorable u && afterCased)) rest
  end.

Definition toLowerCase (s : jsstring) : jsstring := lowerFrom false s.

Fixpoint startsWith (s t : jsstring) {struct t} : bool :=
  match t, s with
  | [], _ => true
  | _ :: _, [] => false
  | b :: t', a :: s' => if a =? b then startsWith s' t' else false
  end.

Fixpoint includes (s t : jsstring) : bool :=
  startsWith s t
  || match s with
     | [] => false
     | _ :: s' => includes s' t
     end.

Fixpoint indexOfFrom (i : Z) (a : list jsstring) (x : jsstring) : Z :=
  match a with
  | [] => (-1)%Z
  | y :: a' => if bool_decide (y = x) then i else indexOfFrom (i + 1)%Z a' x
  end.

Definition indexOf (a : list jsstring) (x : jsstring) : Z := indexOfFrom 0%Z a x.

(** A string is truthy when it is not empty. *)
Definition truthy (s : jsstring) : bool :=
  match s with
  | [] => false
  | _ :: _ => true
  end.

Record Event : Type := {
  name : jsstring;
  domain : jsstring;
  producerNames : list jsstring;
  consumerNames : list jsstring
}.

Record SelectedFilters : Type := {
  services : list jsstring;
  domains : list jsstring
}.

Definition serviceCallback (serviceFilters : list jsstring) (event : Event) : bool :=
  let hasConsumersFromFilters :=
    Arr.some (consumerNames event)
             (fun consumerId => (-1 <? indexOf serviceFilters consumerId)%Z) in
  let hasProducersFromFilters :=
    Arr.some (producerNames event)
             (fun producerId => (-1 <? indexOf serviceFilters producerId)%Z) in
  hasConsumersFromFilters || hasProducersFromFilters.

Definition domainCallback (domainFilters : list jsstring) (event : Event) : bool :=
  (-1 <? indexOf domainFilters (domain event))%Z.

Definition searchCallback (searchFilter : jsstring) (event : Event) : bool :=
  includes (toLowerCase (name event)) (toLowerCase searchFilter).

Definition searchPass (searchFilter : jsstring) (filteredEvents : list Event)
    : list Event :=
  if truthy searchFilter
  then Arr.filter filteredEvents (searchCallback searchFilter)
  else filteredEvents.

(** [getFilteredEvents], over the three variables it closes over; the two
    arrays of the guard are truthy. *)
Definition getFilteredEvents (events : list Event)
    (selectedFilters : SelectedFilters) (searchFilter : jsstring) : list Event :=
  if negb true && negb (truthy searchFilter) && negb true then events
  else
    let filteredEvents := events in
    let filteredEvents :=
      if (0 <? Z.of_nat (length (services selectedFilters)))%Z
      then Arr.filter filteredEvents (serviceCallback (services selectedFilters))
      else filteredEvents in
    let filteredEvents :=
      if (0 <? Z.of_nat (length (domains selectedFilters)))%Z
      then Arr.filter filteredEvents (domainCallback (domains selectedFilters))
      else filteredEvents in
    let filteredEvents := searchPass searchFilter filteredEvents in
    filteredEvents.





End Wide.

(** A string of the Latin-1 range as a string of code units, and the
    events and the selection with it. *)
Fixpoint widen (s : string) : Wide.jsstring :=
  match s with
  | EmptyString => []
  | String c s' => N_of_ascii c :: widen s'
  end.

Definition widenEvent (e : Event) : Wide.Event :=
  {| Wide.name := widen (name e);
     Wide.domain := widen (domain e);
     Wide.producerNames := widen <$> producerNames e;
     Wide.consumerNames := widen <$> consumerNames e |}.

Definition widenFilters (f : SelectedFilters) : Wide.SelectedFilters :=
  {| Wide.services := widen <$> services f;
     Wide.domains := widen <$> domains f |}.


Definition noFilters : Wide.SelectedFilters :=
  {| Wide.services := []; Wide.domains := [] |}.

#[global] Instance Event_eq_dec : EqDecision Event.
Proof. solve_decision. Defined.

(** The intersection of three lists, in the order of the first. *)
Definition intersection3 (a b c : list Event) : list Event :=
  list_intersection (list_intersection a b) c.

(** The three filters in the words of the specification. [R] is [E]
    filtered by [P]: the events of [E] that satisfy [P], each as often and
    in the order in which [E] has it. *)
Inductive filteredBy (P : Event -> Prop) : list Event -> list Event -> Prop :=
  | filteredBy_nil : filteredBy P [] []
  | filteredBy_keep e E R :
      P e -> filteredBy P E R -> filteredBy P (e :: E) (e :: R)
  | filteredBy_drop e E R :
      ~ P e -> filteredBy P E R -> filteredBy P (e :: E) R.

(** The service filter keeps an event when one of its producers or one of
    its consumers is selected; it applies only when a service is selected. *)
Definition keptByServices (st : PageState Event) (e : Event) : Prop :=
  services (selectedFilters st) = [] \/ inSelectedServices st e.

(** The domain filter keeps an event when its domain is selected; it
    applies only when a domain is selected. *)
Definition keptByDomains (st : PageState Event) (e : Event) : Prop :=
  domains (selectedFilters st) = [] \/ inSelectedDomains st e.

(** The text filter keeps an event when its lower-cased name contains the
    lower-cased search text; it applies only when there is a search text. *)
Definition keptBySearch (st : PageState Event) (e : Event) : Prop :=
  searchFilter st = EmptyString \/ matchesSearch st e.

(** The engine without its first line. *)
Definition getFilteredEvents_noGuard (events : list Event) (st : PageState Event)
    : list Event :=
  filterPasses events st.

(** ** The rest of the page *)

(** [classNames(...classes)], on the strings its callers pass. *)
Definition classNames (classes : list string) : string :=
  Arr.join (Arr.filter classes (fun c => ToBoolean (VString c))) " ".

(** [PageProps]; [services] holds the names that [getStaticProps] puts
    there. *)
Module PageProps.
Record t : Type := {
  events : list Event;
  services : list string;
  domains : list string
}.
End PageProps.

(** [getStaticProps], over the three functions of [@/lib] it calls. *)
Definition getStaticProps (getAllEvents : list Event)
    (getUniqueServicesNamesFromEvents getUniqueDomainNamesFromEvents
       : list Event -> list string)
    : PageProps.t :=
  let events := getAllEvents in
  let services := getUniqueServicesNamesFromEvents events in
  let domains := getUniqueDomainNamesFromEvents events in
  {| PageProps.events := events;
     PageProps.services := JsSet.spread (JsSet.ofArray services);
     PageProps.domains := domains |}.

(** The sections of [filters] and their options. *)
Module Filter.
Record Option : Type := {
  value : string;
  label : string;
  checked : bool
}.
Record Section : Type := {
  id : FilterType;
  name : string;
  options : list Option
}.
End Filter.

(** The string behind a section [id]. *)
Definition idString (type : FilterType) : string :=
  match type with
  | FServices => "services"
  | FDomains => "domains"
  end.

Definition filters (props : PageProps.t) : list Filter.Section :=
  [ {| Filter.id := FDomains;
       Filter.name :=
         "Filter by Domains ("
         +:+ pretty (length (PageProps.domains props)) +:+ ")";
       Filter.options :=
         (fun domain =>
            {| Filter.value := domain; Filter.label := domain;
               Filter.checked := false |})
         <$> PageProps.domains props |};
    {| Filter.id := FServices;
       Filter.name :=
         "Filter by Services ("
         +:+ pretty (length (PageProps.services props)) +:+ ")";
       Filter.options :=
         (fun service =>
            {| Filter.value := service; Filter.label := service;
               Filter.checked := false |})
         <$> PageProps.services props |} ].

(** What the page renders for one option: the [input] and its [label]. *)
Record Checkbox : Type := {
  inputId : string;
  inputName : string;
  defaultValue : string;
  defaultChecked : bool;
  onChangeType : FilterType;
  labelHtmlFor : string;
  labelText : string
}.

(** The callback of [section.options.map]. *)
Definition renderOption (section : Filter.Section) (optionIdx : nat)
    (option : Filter.Option) : Checkbox :=
  {| inputId :=
       "filter-" +:+ idString (Filter.id section) +:+ "-" +:+ pretty optionIdx;
     inputName := idString (Filter.id section) +:+ "[]";
     defaultValue := Filter.value option;
     defaultChecked := Filter.checked option;
     onChangeType := Filter.id section;
     labelHtmlFor :=
       "filter-" +:+ idString (Filter.id section) +:+ "-" +:+ pretty optionIdx;
     labelText := Filter.label option |}.

(** The callback of [filters.map]: [None] for the [null] of a section
    without options. *)
Definition renderSection (section : Filter.Section) : option (list Checkbox) :=
  if Z.of_nat (length (Filter.options section)) =? 0 then None
  else Some (imap (renderOption section) (Filter.options section)).

(** The checkboxes of the form, section after section. *)
Definition renderFilters (props : PageProps.t) : list Checkbox :=
  concat (omap renderSection (filters props)).

Definition setShowMermaidDiagrams {Ev} (st : PageState Ev) (b : bool)
    : PageState Ev :=
  {| selectedFilters := selectedFilters st;
     showMermaidDiagrams := b;
     eventsToRender := eventsToRender st;
     searchFilter := searchFilter st |}.

Definition setEventsToRender {Ev} (st : PageState Ev) (l : list Ev)
    : PageState Ev :=
  {| selectedFilters := selectedFilters st;
     showMermaidDiagrams := showMermaidDiagrams st;
     eventsToRender := l;
     searchFilter := searchFilter st |}.

(** The body of the effect: [setEventsToRender(getFilteredEvents())]. *)
Definition renderEffect (events : list Event) (st : PageState Event)
    : PageState Event :=
  setEventsToRender st (getFilteredEvents events st).

(** What the user can do to the form. [SearchChanged] is the call that the
    debounced handler ends in. *)
Inductive UiEvent : Type :=
  | FilterChanged (value : string) (type : FilterType) (isChecked : bool)
  | SearchChanged (value : string)
  | MermaidChanged (isChecked : bool).

(** One event and the render that follows it. The effect depends on
    [selectedFilters] and [searchFilter]: it runs after every
    [handleFilterSelection], which stores a new object, after a search text
    that differs from the stored one, and not after the diagram toggle. *)
Definition dispatch (events : list Event) (st : PageState Event) (e : UiEvent)
    : PageState Event :=
  match e with
  | FilterChanged value type isChecked =>
      renderEffect events (handleFilterSelection value type isChecked st)
  | SearchChanged value =>
      if String.eqb value (searchFilter st) then st
      else renderEffect events (setSearchFilter st value)
  | MermaidChanged isChecked => setShowMermaidDiagrams st isChecked
  end.

(** The first render: the initial state, then the effect. *)
Definition mount (events : list Event) : PageState Event :=
  renderEffect events (initialState events).

Definition session (events : list Event) (trace : list UiEvent)
    : PageState Event :=
  fold_left (dispatch events) trace (mount events).

(** [eventsToRender.length === 0], the condition of [No events found.] *)
Definition noEventsFound (st : PageState Event) : bool :=
  Z.of_nat (length (eventsToRender st)) =? 0.

(** The checkboxes are uncontrolled: each keeps its own checked state, by
    section and index, starting from [defaultChecked]. A click flips that
    state and calls the [onChange] of the box with the new state. *)
Definition Boxes : Type := FilterType -> nat -> bool.

#[global] Instance FilterType_eq_dec : EqDecision FilterType.
Proof. solve_decision. Defined.

Definition initialBoxes : Boxes := fun _ _ => false.

Definition optionValues (props : PageProps.t) (type : FilterType) : list string :=
  match type with
  | FServices => PageProps.services props
  | FDomains => PageProps.domains props
  end.

Definition click (props : PageProps.t) (dom : Boxes * PageState Event)
    (target : FilterType * nat) : Boxes * PageState Event :=
  let '(boxes, st) := dom in
  let '(type, optionIdx) := target in
  match optionValues props type !! optionIdx with
  | None => (boxes, st)
  | Some value =>
      let isChecked := negb (boxes type optionIdx) in
      (fun t i =>
         if bool_decide (t = type /\ i = optionIdx) then isChecked else boxes t i,
       dispatch (PageProps.events props) st (FilterChanged value type isChecked))
  end.

Definition clicks (props : PageProps.t) (targets : list (FilterType * nat))
    : Boxes * PageState Event :=
  fold_left (click props) targets
            (initialBoxes, mount (PageProps.events props)).

(** The elements of a list at the places where they occur first: the
    element at index [i] stays when it is not among the [i] elements before
    it. *)
Definition firstOccurrences (a : list string) : list string :=
  omap id
       (imap (fun i x => if bool_decide (x ∈ take i a) then None else Some x) a).

(** [st] constrains at least as much as [st']: in each of the two lists it
    selects something and no more than [st'], unless [st'] selects nothing,
    and it has a search text whose lower-casing contains the lower-casing of
    that of [st'], unless [st'] has none. *)
Definition narrows (st st' : PageState Event) : Prop :=
  (services (selectedFilters st') = []
   \/ (services (selectedFilters st) <> []
       /\ services (selectedFilters st) ⊆ services (selectedFilters st')))
  /\ (domains (selectedFilters st') = []
      \/ (domains (selectedFilters st) <> []
          /\ domains (selectedFilters st) ⊆ domains (selectedFilters st')))
  /\ (searchFilter st' = EmptyString
      \/ (searchFilter st <> EmptyString
          /\ exists pre post,
               Str.toLowerCase (searchFilter st)
               = pre +:+ Str.toLowerCase (searchFilter st') +:+ post)).

(** The boxes mirror the selection: each list is free of duplicates and
    holds option values only, and a box is checked exactly when its value is
    in the list of its section. *)
Definition mirrors (props : PageProps.t) (dom : Boxes * PageState Event) : Prop :=
  forall type,
    NoDup (getFilter (selectedFilters (snd dom)) type)
    /\ (forall v, v ∈ getFilter (selectedFilters (snd dom)) type ->
                  v ∈ optionValues props type)
    /\ (forall i v, optionValues props type !! i = Some v ->
                    (fst dom type i = true
                     <-> v ∈ getFilter (selectedFilters (snd dom)) type)).

(** ** The scenario, run *)

Example scenario_billing :
  getFilteredEvents catalog (stateOf catalog ["BillingService"] [] "") = [OrderCreated].
Proof. reflexivity. Qed.

Example scenario_ship :
  getFilteredEvents catalog (stateOf catalog [] [] "ship") = [OrderShipped].
Proof. reflexivity. Qed.

Example scenario_both :
  getFilteredEvents catalog (stateOf catalog ["BillingService"] [] "ship") = [].
Proof. reflexivity. Qed.

Example orphan_throws :
  getFilteredEventsJs [orphan]
    {| selectedFilters := {| services := ["OrderService"]; domains := [] |};
       showMermaidDiagrams := false; eventsToRender := [orphan];
       searchFilter := EmptyString |} = inl TypeError.
Proof. reflexivity. Qed.

(** ** The primitives meet their descriptions *)

Section Primitives.

Lemma indexOfFrom_found (a : list string) (x : string) (i : Z) :
  0 <= i -> (-1 <? Arr.indexOfFrom i a x) = true <-> x ∈ a.
Proof.
  revert i. induction a as [|y a IH]; intros i Hi; simpl.
  - split; [discriminate | intros H; inversion H].
  - destruct (String.eqb_spec y x) as [->|Hne].
    + split; [intros _; left | intros _; apply Z.ltb_lt; lia].
    + rewrite IH by lia. rewrite elem_of_cons.
      split; [by right | by intros [->|]].
Qed.

Lemma indexOf_found (a : list string) (x : string) :
  (-1 <? Arr.indexOf a x) = true <-> x ∈ a.
Proof. apply indexOfFrom_found. lia. Qed.

Lemma some_found {A} (a : list A) (f : A -> bool) :
  Arr.some a f = true <-> exists x, x ∈ a /\ f x = true.
Proof.
  unfold Arr.some. rewrite existsb_exists.
  split; intros (x & Hx & Hf); exists x; split; auto;
    by apply list_elem_of_In.
Qed.

Lemma filter_elem {A} (a : list A) (f : A -> bool) (x : A) :
  x ∈ Arr.filter a f <-> x ∈ a /\ f x = true.
Proof.
  unfold Arr.filter. rewrite !list_elem_of_In. apply filter_In.
Qed.

Lemma filter_sublist {A} (a : list A) (f : A -> bool) :
  Arr.filter a f `sublist_of` a.
Proof.
  unfold Arr.filter. induction a as [|x a IH]; simpl.
  - constructor.
  - destruct (f x); by constructor.
Qed.

Lemma length_positive {A} (a : list A) :
  (0 <? Z.of_nat (length a)) = true <-> a <> [].
Proof.
  destruct a; simpl; [|split; [discriminate | intros _; apply Z.ltb_lt; lia]].
  split; [discriminate | congruence].
Qed.

Lemma ToBoolean_string (s : string) :
  ToBoolean (VString s) = true <-> s <> EmptyString.
Proof. destruct s; simpl; split; congruence. Qed.

Lemma append_cons (a : ascii) (s t : string) :
  String a s +:+ t = String a (s +:+ t).
Proof. reflexivity. Qed.

Lemma startsWith_prefix (s t : string) :
  Str.startsWith s t = true <-> exists post, s = t +:+ post.
Proof.
  revert s. induction t as [|b t IH]; intros s; simpl.
  - split; [intros _; by exists s | done].
  - destruct s as [|a s].
    + split; [discriminate | intros [post H]; discriminate].
    + destruct (Ascii.eqb_spec a b) as [->|Hne].
      * rewrite IH. split; intros [post H]; exists post;
          rewrite append_cons in *; congruence.
      * split; [discriminate|].
        intros [post H]. rewrite append_cons in H. congruence.
Qed.

Lemma includes_substring (s t : string) :
  Str.includes s t = true <-> exists pre post, s = pre +:+ t +:+ post.
Proof.
  induction s as [|a s IH]; simpl.
  - rewrite orb_false_r, startsWith_prefix. split.
    + intros [post H]. by exists EmptyString, post.
    + intros (pre & post & H). destruct pre; [by exists post|discriminate].
  - rewrite orb_true_iff, IH, startsWith_prefix. split.
    + intros [[post H]|(pre & post & H)].
      * by exists EmptyString, post.
      * exists (String a pre), post. by rewrite append_cons, H.
    + intros (pre & post & H). destruct pre as [|c pre].
      * left. by exists post.
      * right. exists pre, post. rewrite append_cons in H. congruence.
Qed.

Lemma toLowerCase_empty (s : string) :
  Str.toLowerCase s = EmptyString <-> s = EmptyString.
Proof. destruct s; simpl; split; congruence. Qed.

End Primitives.

(** ** The passes of the engine *)

Section Passes.

Variable st : PageState Event.

Lemma serviceCallback_spec (e : Event) :
  serviceCallback (services (selectedFilters st)) e = true
  <-> inSelectedServices st e.
Proof.
  unfold serviceCallback, inSelectedServices.
  rewrite orb_true_iff, !some_found.
  setoid_rewrite indexOf_found. tauto.
Qed.

Lemma domainCallback_spec (e : Event) :
  domainCallback (domains (selectedFilters st)) e = true
  <-> inSelectedDomains st e.
Proof. apply indexOf_found. Qed.

Lemma searchCallback_spec (e : Event) :
  searchCallback (searchFilter st) e = true <-> matchesSearch st e.
Proof. apply includes_substring. Qed.

Lemma matchesSearch_empty (e : Event) :
  searchFilter st = EmptyString -> matchesSearch st e.
Proof.
  intros H. unfold matchesSearch. rewrite H.
  by exists EmptyString, (Str.toLowerCase (name e)).
Qed.

Lemma servicePass_elem (l : list Event) (e : Event) :
  e ∈ servicePass st l
  <-> e ∈ l /\ (services (selectedFilters st) = [] \/ inSelectedServices st e).
Proof.
  unfold servicePass.
  destruct (0 <? _) eqn:Hlen.
  - rewrite filter_elem, serviceCallback_spec.
    apply length_positive in Hlen. tauto.
  - destruct (services (selectedFilters st)); [tauto|].
    apply Z.ltb_ge in Hlen. simpl in Hlen. lia.
Qed.

Lemma domainPass_elem (l : list Event) (e : Event) :
  e ∈ domainPass st l
  <-> e ∈ l /\ (domains (selectedFilters st) = [] \/ inSelectedDomains st e).
Proof.
  unfold domainPass.
  destruct (0 <? _) eqn:Hlen.
  - rewrite filter_elem, domainCallback_spec.
    apply length_positive in Hlen. tauto.
  - destruct (domains (selectedFilters st)); [tauto|].
    apply Z.ltb_ge in Hlen. simpl in Hlen. lia.
Qed.

Lemma searchPass_elem (l : list Event) (e : Event) :
  e ∈ searchPass st l <-> e ∈ l /\ matchesSearch st e.
Proof.
  unfold searchPass.
  destruct (ToBoolean _) eqn:Htext.
  - by rewrite filter_elem, searchCallback_spec.
  - assert (searchFilter st = EmptyString) as Hempty.
    { destruct (searchFilter st); [done | discriminate]. }
    pose proof (matchesSearch_empty e Hempty). tauto.
Qed.

(** Each pass is one [filter], by a test that is constantly true when the
    pass is skipped. *)
Lemma servicePass_filter :
  exists f, forall l, servicePass st l = Arr.filter l f.
Proof.
  unfold servicePass. destruct (0 <? _).
  - by eexists.
  - exists (fun _ => true). intros l. symmetry. apply filter_true.
Qed.

Lemma domainPass_filter :
  exists f, forall l, domainPass st l = Arr.filter l f.
Proof.
  unfold domainPass. destruct (0 <? _).
  - by eexists.
  - exists (fun _ => true). intros l. symmetry. apply filter_true.
Qed.

Lemma searchPass_filter :
  exists f, forall l, searchPass st l = Arr.filter l f.
Proof.
  unfold searchPass. destruct (ToBoolean _).
  - by eexists.
  - exists (fun _ => true). intros l. symmetry. apply filter_true.
Qed.

Lemma servicePass_sublist (l : list Event) : servicePass st l `sublist_of` l.
Proof. destruct servicePass_filter as [f ->]. apply filter_sublist. Qed.

Lemma domainPass_sublist (l : list Event) : domainPass st l `sublist_of` l.
Proof. destruct domainPass_filter as [f ->]. apply filter_sublist. Qed.

Lemma searchPass_sublist (l : list Event) : searchPass st l `sublist_of` l.
Proof. destruct searchPass_filter as [f ->]. apply filter_sublist. Qed.

Lemma earlyReturnGuard_false {Ev} (s : PageState Ev) : earlyReturnGuard s = false.
Proof. reflexivity. Qed.

Lemma getFilteredEvents_passes (E : list Event) :
  getFilteredEvents E st = searchPass st (domainPass st (servicePass st E)).
Proof. reflexivity. Qed.

Lemma getFilteredEvents_elem (E : list Event) (e : Event) :
  e ∈ getFilteredEvents E st
  <-> e ∈ E
      /\ (services (selectedFilters st) = [] \/ inSelectedServices st e)
      /\ (domains (selectedFilters st) = [] \/ inSelectedDomains st e)
      /\ matchesSearch st e.
Proof.
  rewrite getFilteredEvents_passes, searchPass_elem, domainPass_elem,
    servicePass_elem. tauto.
Qed.

Lemma getFilteredEvents_sublist (E : list Event) :
  getFilteredEvents E st `sublist_of` E.
Proof.
  rewrite getFilteredEvents_passes.
  etrans; [apply searchPass_sublist|].
  etrans; [apply domainPass_sublist|]. apply servicePass_sublist.
Qed.

End Passes.

(** The engine reads [selectedFilters] and [searchFilter] only. *)
Lemma getFilteredEvents_reads (E : list Event) (st st' : PageState Event) :
  selectedFilters st' = selectedFilters st ->
  searchFilter st' = searchFilter st ->
  getFilteredEvents E st' = getFilteredEvents E st.
Proof.
  intros Hf Hs.
  unfold getFilteredEvents, earlyReturnGuard, filterPasses, servicePass,
    domainPass, searchPass.
  by rewrite Hf, Hs.
Qed.

(** ** The service filter *)

(** C1, as stated, fails: with the service [BillingService] selected and the
    search text [ship], the event [OrderCreated] is consumed by a selected
    service and yet is not in the result, so the result is not exactly the
    events of the catalog with a selected producer or consumer. *)
Lemma service_filter_not_alone :
  services (selectedFilters (stateOf catalog ["BillingService"] [] "ship")) <> []
  /\ ~ (forall e,
         e ∈ getFilteredEvents catalog (stateOf catalog ["BillingService"] [] "ship")
         <-> e ∈ catalog
             /\ inSelectedServices (stateOf catalog ["BillingService"] [] "ship") e).
Proof.
  split; [discriminate|].
  intros H. specialize (H OrderCreated).
  assert (OrderCreated ∈ @nil Event) as Hin; [|inversion Hin].
  apply H. split; [left|].
  right. exists "BillingService". split; by left.
Qed.

(** C1, amended: when [selectedServices] is not empty, the result holds
    exactly the events of [E] that have a producer or a consumer among the
    selected services and that pass the domain filter (if any domain is
    selected) and the text filter; with no domain selected and an empty
    search text, it holds exactly the events with a selected producer or
    consumer. *)
Theorem service_filter_exact (E : list Event) (st : PageState Event) :
  services (selectedFilters st) <> [] ->
  (forall e,
     e ∈ getFilteredEvents E st
     <-> e ∈ E /\ inSelectedServices st e
         /\ (domains (selectedFilters st) = [] \/ inSelectedDomains st e)
         /\ matchesSearch st e)
  /\ (domains (selectedFilters st) = [] -> searchFilter st = EmptyString ->
      forall e, e ∈ getFilteredEvents E st <-> e ∈ E /\ inSelectedServices st e).
Proof.
  intros Hsvc. split.
  - intros e. rewrite getFilteredEvents_elem. tauto.
  - intros Hdom Htext e. rewrite getFilteredEvents_elem.
    pose proof (matchesSearch_empty st e Htext). tauto.
Qed.

Lemma service_filter_exact_witness :
  services (selectedFilters (stateOf catalog ["BillingService"] [] "")) <> []
  /\ forall e,
       e ∈ getFilteredEvents catalog (stateOf catalog ["BillingService"] [] "")
       <-> e ∈ catalog
           /\ inSelectedServices (stateOf catalog ["BillingService"] [] "") e.
Proof.
  split; [discriminate|].
  refine (proj2 (service_filter_exact catalog
                   (stateOf catalog ["BillingService"] [] "") _) _ _);
    [discriminate | reflexivity | reflexivity].
Defined.

(** ** The domain filter *)

(** C4, as stated, fails: with the domain [Orders] selected and the search
    text [ship], the event [OrderCreated] has a selected domain and yet is
    not in the result. *)
Lemma domain_filter_not_alone :
  domains (selectedFilters (stateOf catalog [] ["Orders"] "ship")) <> []
  /\ ~ (forall e,
         e ∈ getFilteredEvents catalog (stateOf catalog [] ["Orders"] "ship")
         <-> e ∈ catalog
             /\ inSelectedDomains (stateOf catalog [] ["Orders"] "ship") e).
Proof.
  split; [discriminate|].
  intros H. specialize (H OrderCreated).
  assert (OrderCreated ∈ @nil Event) as Hin; [|inversion Hin].
  apply H. split; by left.
Qed.

(** C4, amended: when [selectedDomains] is not empty, the result holds
    exactly the events of [E] whose domain is selected and that pass the
    service filter (if any service is selected) and the text filter; with no
    service selected and an empty search text, it holds exactly the events
    whose domain is selected. *)
Theorem domain_filter_exact (E : list Event) (st : PageState Event) :
  domains (selectedFilters st) <> [] ->
  (forall e,
     e ∈ getFilteredEvents E st
     <-> e ∈ E /\ inSelectedDomains st e
         /\ (services (selectedFilters st) = [] \/ inSelectedServices st e)
         /\ matchesSearch st e)
  /\ (services (selectedFilters st) = [] -> searchFilter st = EmptyString ->
      forall e, e ∈ getFilteredEvents E st <-> e ∈ E /\ inSelectedDomains st e).
Proof.
  intros Hdom. split.
  - intros e. rewrite getFilteredEvents_elem. tauto.
  - intros Hsvc Htext e. rewrite getFilteredEvents_elem.
    pose proof (matchesSearch_empty st e Htext). tauto.
Qed.

Lemma domain_filter_exact_witness :
  domains (selectedFilters (stateOf catalog [] ["Shipping"] "")) <> []
  /\ forall e,
       e ∈ getFilteredEvents catalog (stateOf catalog [] ["Shipping"] "")
       <-> e ∈ catalog
           /\ inSelectedDomains (stateOf catalog [] ["Shipping"] "") e.
Proof.
  split; [discriminate|].
  refine (proj2 (domain_filter_exact catalog
                   (stateOf catalog [] ["Shipping"] "") _) _ _);
    [discriminate | reflexivity | reflexivity].
Defined.

(** ** Composition and identity *)

Lemma intersection_filter (f : Event -> bool) (l l' : list Event) :
  l' ⊆ l -> list_intersection l' (Arr.filter l f) = Arr.filter l' f.
Proof.
  induction l' as [|x l' IH]; intros Hsub; [done|].
  assert (x ∈ l) as Hx by (apply Hsub; left).
  assert (l' ⊆ l) as Hl' by (intros y Hy; apply Hsub; by right).
  simpl. unfold Arr.filter in *. simpl.
  rewrite <- (IH Hl').
  destruct (f x) eqn:Hf; case_decide as Hin; try done.
  - exfalso. apply Hin. apply filter_elem. by split.
  - apply filter_elem in Hin as [_ Hin]. congruence.
Qed.

Lemma filteredBy_unique (P : Event -> Prop) (E R R' : list Event) :
  filteredBy P E R -> filteredBy P E R' -> R = R'.
Proof.
  intros H. revert R'.
  induction H as [|e E R He _ IH|e E R He _ IH]; intros R' H'; inversion H';
    subst; try done.
  - f_equal. by apply IH.
  - by apply IH.
Qed.

Lemma filter_filteredBy (P : Event -> Prop) (f : Event -> bool) (l : list Event) :
  (forall e, f e = true <-> P e) -> filteredBy P l (Arr.filter l f).
Proof.
  intros Hf. unfold Arr.filter. induction l as [|e l IH]; simpl.
  - constructor.
  - destruct (f e) eqn:He.
    + apply filteredBy_keep; [by apply Hf | done].
    + apply filteredBy_drop; [|done]. rewrite <- Hf. congruence.
Qed.

Lemma filteredBy_all (P : Event -> Prop) (l : list Event) :
  (forall e, P e) -> filteredBy P l l.
Proof. intros HP. induction l; constructor; auto. Qed.

Lemma filteredBy_then (P Q : Event -> Prop) (l r r' : list Event) :
  filteredBy P l r -> filteredBy Q r r' ->
  filteredBy (fun e => P e /\ Q e) l r'.
Proof.
  intros H. revert r'.
  induction H as [|e E R He _ IH|e E R He _ IH]; intros r' H'.
  - inversion H'. constructor.
  - inversion H'; subst.
    + apply filteredBy_keep; [done | by apply IH].
    + apply filteredBy_drop; [tauto | by apply IH].
  - apply filteredBy_drop; [tauto | by apply IH].
Qed.

Lemma servicePass_filteredBy (st : PageState Event) (l : list Event) :
  filteredBy (keptByServices st) l (servicePass st l).
Proof.
  unfold servicePass, keptByServices. destruct (0 <? _) eqn:Hlen.
  - apply length_positive in Hlen. apply filter_filteredBy.
    intros e. rewrite serviceCallback_spec. tauto.
  - apply filteredBy_all. intros e. left.
    destruct (services (selectedFilters st)); [done|].
    apply Z.ltb_ge in Hlen. simpl in Hlen. lia.
Qed.

Lemma domainPass_filteredBy (st : PageState Event) (l : list Event) :
  filteredBy (keptByDomains st) l (domainPass st l).
Proof.
  unfold domainPass, keptByDomains. destruct (0 <? _) eqn:Hlen.
  - apply length_positive in Hlen. apply filter_filteredBy.
    intros e. rewrite domainCallback_spec. tauto.
  - apply filteredBy_all. intros e. left.
    destruct (domains (selectedFilters st)); [done|].
    apply Z.ltb_ge in Hlen. simpl in Hlen. lia.
Qed.

Lemma searchPass_filteredBy (st : PageState Event) (l : list Event) :
  filteredBy (keptBySearch st) l (searchPass st l).
Proof.
  unfold searchPass, keptBySearch. destruct (ToBoolean _) eqn:Htext.
  - apply ToBoolean_string in Htext. apply filter_filteredBy.
    intros e. rewrite searchCallback_spec. tauto.
  - apply filteredBy_all. intros e. left.
    by destruct (searchFilter st).
Qed.

Lemma passes_intersection (E : list Event) (st : PageState Event) :
  getFilteredEvents E st
  = intersection3 (servicePass st E) (domainPass st E) (searchPass st E).
Proof.
  rewrite getFilteredEvents_passes. unfold intersection3.
  pose proof (sublist_subseteq _ _ (servicePass_sublist st E)) as Hs.
  destruct (domainPass_filter st) as [g Hg].
  destruct (searchPass_filter st) as [h Hh].
  rewrite !Hg, !Hh.
  rewrite (intersection_filter g E) by done.
  rewrite (intersection_filter h E); [done|].
  etrans; [|exact Hs]. apply sublist_subseteq, filter_sublist.
Qed.

(** C2: let [RS], [RD] and [RT] be what the service filter, the domain
    filter and the text filter give on [E], each one keeping every event
    when its dimension is unconstrained. The result of the engine is the
    intersection of the three, it is [E] filtered by the three conditions
    together, and it is a subsequence of [E]: the survivors keep their
    relative order. *)
Theorem filters_compose (E : list Event) (st : PageState Event)
    (RS RD RT : list Event) :
  filteredBy (keptByServices st) E RS ->
  filteredBy (keptByDomains st) E RD ->
  filteredBy (keptBySearch st) E RT ->
  getFilteredEvents E st = intersection3 RS RD RT
  /\ filteredBy
       (fun e => (keptByServices st e /\ keptByDomains st e) /\ keptBySearch st e)
       E (getFilteredEvents E st)
  /\ (forall e, e ∈ getFilteredEvents E st <-> e ∈ RS /\ e ∈ RD /\ e ∈ RT)
  /\ getFilteredEvents E st `sublist_of` E.
Proof.
  intros HS HD HT.
  rewrite (filteredBy_unique _ _ _ _ HS (servicePass_filteredBy st E)).
  rewrite (filteredBy_unique _ _ _ _ HD (domainPass_filteredBy st E)).
  rewrite (filteredBy_unique _ _ _ _ HT (searchPass_filteredBy st E)).
  split; [apply passes_intersection|]. split; [|split].
  - rewrite getFilteredEvents_passes.
    eapply filteredBy_then; [|apply searchPass_filteredBy].
    eapply filteredBy_then; [apply servicePass_filteredBy|].
    apply domainPass_filteredBy.
  - intros e. rewrite getFilteredEvents_elem, servicePass_elem,
      domainPass_elem, searchPass_elem. tauto.
  - apply getFilteredEvents_sublist.
Qed.

Lemma filters_compose_witness :
  getFilteredEvents catalog
    (stateOf catalog ["ShippingService"] ["Orders"; "Shipping"] "order")
  = intersection3 [OrderShipped] catalog catalog.
Proof.
  apply (filters_compose catalog
           (stateOf catalog ["ShippingService"] ["Orders"; "Shipping"] "order")
           [OrderShipped] catalog catalog).
  - apply filteredBy_drop.
    + intros [H|[(p & Hp & Hs)|(c & Hc & Hs)]]; simpl in *.
      * discriminate.
      * apply list_elem_of_singleton in Hp, Hs. congruence.
      * apply list_elem_of_singleton in Hc, Hs. congruence.
    + apply filteredBy_keep; [|constructor].
      right. left. exists "ShippingService". split; by left.
  - apply filteredBy_keep; [right; by left|].
    apply filteredBy_keep; [right; right; by left | constructor].
  - apply filteredBy_keep; [right; by exists "", "created"|].
    apply filteredBy_keep; [right; by exists "", "shipped" | constructor].
Defined.

(** C3: with no service and no domain selected and an empty search text,
    the engine returns the events it was given, in their order. *)
Theorem unconstrained_identity (E : list Event) (st : PageState Event) :
  services (selectedFilters st) = [] ->
  domains (selectedFilters st) = [] ->
  searchFilter st = EmptyString ->
  getFilteredEvents E st = E.
Proof.
  intros Hsvc Hdom Htext.
  rewrite getFilteredEvents_passes.
  unfold servicePass, domainPass, searchPass.
  by rewrite Hsvc, Hdom, Htext.
Qed.

Lemma unconstrained_identity_witness :
  getFilteredEvents catalog (initialState catalog) = catalog.
Proof.
  apply (unconstrained_identity catalog (initialState catalog)); reflexivity.
Defined.

(** ** The text filter *)















Example search_ORDER_wide :
  Wide.getFilteredEvents (widenEvent <$> catalog) noFilters (widen "ORDER")
  = widenEvent <$> catalog.
Proof. reflexivity. Qed.

(** ** The Latin-1 strings inside the wide ones

    On strings of the Latin-1 range the engine above is the wide engine:
    what is proved of it is proved of the wide engine on such strings. *)

Lemma widen_inj (s t : string) : widen s = widen t -> s = t.
Proof.
  revert t. induction s as [|a s IH]; intros [|b t] H; try done.
  injection H as Hab Hst. f_equal; [|by apply IH].
  by rewrite <- (ascii_N_embedding a), Hab, ascii_N_embedding.
Qed.

Lemma widen_unit (b : bool) (c : ascii) (rest : Wide.jsstring) :
  (if (N_of_ascii c =? 931)%N && b && negb (Wide.followedByCased rest)
   then [962%N]
   else Wide.lowerOf (N_of_ascii c))
  = [N_of_ascii (Str.lowerUnit c)].
Proof.
  assert ((N_of_ascii c =? 931)%N = false) as ->.
  { apply N.eqb_neq. pose proof (N_ascii_bounded c). lia. }
  cbn [andb]. destruct c as [[] [] [] [] [] [] [] []]; reflexivity.
Qed.

Lemma lowerFrom_widen (b : bool) (s : string) :
  Wide.lowerFrom b (widen s) = widen (Str.toLowerCase s).
Proof.
  revert b. induction s as [|c s IH]; intros b; [done|].
  cbn [widen Str.toLowerCase Wide.lowerFrom]. by rewrite widen_unit, IH.
Qed.

Lemma toLowerCase_widen (s : string) :
  Wide.toLowerCase (widen s) = widen (Str.toLowerCase s).
Proof. apply lowerFrom_widen. Qed.

Lemma startsWith_widen (s t : string) :
  Wide.startsWith (widen s) (widen t) = Str.startsWith s t.
Proof.
  revert s. induction t as [|b t IH]; intros s; [done|].
  destruct s as [|a s]; [done|]. cbn [widen Wide.startsWith Str.startsWith].
  rewrite IH. destruct (Ascii.eqb_spec a b) as [->|Hne].
  - by rewrite N.eqb_refl.
  - destruct (N.eqb_spec (N_of_ascii a) (N_of_ascii b)) as [Heq|]; [|done].
    exfalso. apply Hne.
    by rewrite <- (ascii_N_embedding a), Heq, ascii_N_embedding.
Qed.

Lemma includes_widen (s t : string) :
  Wide.includes (widen s) (widen t) = Str.includes s t.
Proof.
  induction s as [|a s IH]; cbn [widen Wide.includes Str.includes].
  - change (@nil N) with (widen EmptyString). by rewrite startsWith_widen.
  - change (N_of_ascii a :: widen s) with (widen (String a s)).
    by rewrite startsWith_widen, IH.
Qed.

Lemma wide_indexOfFrom_found (a : list Wide.jsstring) (x : Wide.jsstring)
    (i : Z) :
  0 <= i -> (-1 <? Wide.indexOfFrom i a x) = true <-> x ∈ a.
Proof.
  revert i. induction a as [|y a IH]; intros i Hi; simpl.
  - split; [discriminate | intros H; inversion H].
  - case_bool_decide as Hy.
    + subst y. split; [intros _; left | intros _; apply Z.ltb_lt; lia].
    + rewrite IH by lia. rewrite elem_of_cons.
      split; [by right | intros [->|]; done].
Qed.

Lemma indexOf_widen (S : list string) (x : string) :
  (-1 <? Wide.indexOf (widen <$> S) (widen x)) = (-1 <? Arr.indexOf S x).
Proof.
  apply eq_true_iff_eq. unfold Wide.indexOf.
  rewrite wide_indexOfFrom_found by lia. rewrite indexOf_found.
  rewrite list_elem_of_fmap. split.
  - intros (y & Hy & Hin). by rewrite (widen_inj _ _ Hy).
  - intros Hin. by exists x.
Qed.

Lemma some_widen (l S : list string) :
  Arr.some (widen <$> l) (fun x => -1 <? Wide.indexOf (widen <$> S) x)
  = Arr.some l (fun x => -1 <? Arr.indexOf S x).
Proof.
  unfold Arr.some. induction l as [|x l IH]; [done|].
  rewrite fmap_cons. cbn [existsb]. by rewrite indexOf_widen, IH.
Qed.

Lemma filter_widen (l : list Event) (f : Event -> bool)
    (g : Wide.Event -> bool) :
  (forall e, g (widenEvent e) = f e) ->
  Arr.filter (widenEvent <$> l) g = widenEvent <$> Arr.filter l f.
Proof.
  intros Hfg. unfold Arr.filter. induction l as [|e l IH]; [done|].
  rewrite fmap_cons. cbn [List.filter]. rewrite Hfg, IH.
  by destruct (f e).
Qed.

Lemma truthy_widen (s : string) :
  Wide.truthy (widen s) = ToBoolean (VString s).
Proof. by destruct s. Qed.

(** The engine on Latin-1 strings is the wide engine on them. *)
Lemma getFilteredEvents_widen (E : list Event) (st : PageState Event) :
  Wide.getFilteredEvents (widenEvent <$> E) (widenFilters (selectedFilters st))
                         (widen (searchFilter st))
  = widenEvent <$> getFilteredEvents E st.
Proof.
  rewrite getFilteredEvents_passes.
  unfold Wide.getFilteredEvents, Wide.searchPass, servicePass, domainPass,
    searchPass.
  cbn [negb andb]. unfold widenFilters. cbn [Wide.services Wide.domains].
  rewrite !length_fmap, truthy_widen.
  assert (forall l,
            Arr.filter (widenEvent <$> l)
              (Wide.serviceCallback (widen <$> services (selectedFilters st)))
            = widenEvent
                <$> Arr.filter l (serviceCallback (services (selectedFilters st))))
    as Hsvc.
  { intros l. apply filter_widen. intros e.
    unfold Wide.serviceCallback, serviceCallback. simpl.
    by rewrite !some_widen. }
  assert (forall l,
            Arr.filter (widenEvent <$> l)
              (Wide.domainCallback (widen <$> domains (selectedFilters st)))
            = widenEvent
                <$> Arr.filter l (domainCallback (domains (selectedFilters st))))
    as Hdom.
  { intros l. apply filter_widen. intros e.
    unfold Wide.domainCallback, domainCallback. simpl.
    apply indexOf_widen. }
  assert (forall l,
            Arr.filter (widenEvent <$> l)
              (Wide.searchCallback (widen (searchFilter st)))
            = widenEvent <$> Arr.filter l (searchCallback (searchFilter st)))
    as Htext.
  { intros l. apply filter_widen. intros e.
    unfold Wide.searchCallback, searchCallback. simpl.
    by rewrite !toLowerCase_widen, includes_widen. }
  destruct (0 <? Z.of_nat (length (services _)));
    destruct (0 <? Z.of_nat (length (domains _)));
    destruct (ToBoolean _);
    by rewrite ?Hsvc, ?Hdom, ?Htext.
Qed.

Example search_ORDER :
  getFilteredEvents catalog (stateOf catalog [] [] "ORDER") = catalog.
Proof. reflexivity. Qed.

(** ** The flag [filtersApplied] *)

(** C6: the flag is set exactly when the search text or the selected
    services are not empty; selected domains alone leave it unset. *)
Theorem filtersApplied_spec (st : PageState Event) :
  (filtersApplied st = true
   <-> searchFilter st <> EmptyString \/ services (selectedFilters st) <> [])
  /\ (searchFilter st = EmptyString -> services (selectedFilters st) = [] ->
      filtersApplied st = false)
  /\ (services (selectedFilters st) <> [] -> filtersApplied st = true)
  /\ (searchFilter st <> EmptyString -> filtersApplied st = true).
Proof.
  assert (filtersApplied st = true
          <-> searchFilter st <> EmptyString
              \/ services (selectedFilters st) <> []) as Hiff.
  { unfold filtersApplied.
    by rewrite orb_true_iff, ToBoolean_string, length_positive. }
  repeat split; try apply Hiff; try tauto.
  intros Htext Hsvc. unfold filtersApplied. by rewrite Htext, Hsvc.
Qed.

Lemma filtersApplied_spec_witness :
  filtersApplied (stateOf catalog [] ["Orders"] "") = false
  /\ filtersApplied (stateOf catalog ["BillingService"] [] "") = true
  /\ filtersApplied (stateOf catalog [] [] "ship") = true.
Proof.
  split; [|split].
  - apply (proj1 (proj2 (filtersApplied_spec (stateOf catalog [] ["Orders"] ""))));
      reflexivity.
  - apply (proj1 (proj2 (proj2 (filtersApplied_spec
                                  (stateOf catalog ["BillingService"] [] "")))));
      discriminate.
  - apply (proj2 (proj2 (proj2 (filtersApplied_spec (stateOf catalog [] [] "ship")))));
      discriminate.
Defined.

(** ** Toggling a checkbox *)

Lemma remove_appended (l : list string) (v : string) :
  v ∉ l ->
  Arr.filter (Arr.concat l [v]) (fun x => negb (String.eqb x v)) = l.
Proof.
  unfold Arr.filter, Arr.concat.
  induction l as [|y l IH]; intros Hv; simpl.
  - by rewrite String.eqb_refl.
  - apply not_elem_of_cons in Hv as [Hne Hv].
    destruct (String.eqb_spec y v) as [->|_]; [done|].
    simpl. by rewrite IH.
Qed.

Lemma getFilter_setFilter (f : SelectedFilters) (type : FilterType)
    (l : list string) :
  getFilter (setFilter f type l) type = l.
Proof. by destruct type. Qed.

Lemma setFilter_twice (f : SelectedFilters) (type : FilterType)
    (l : list string) :
  setFilter (setFilter f type l) type (getFilter f type) = f.
Proof. by destruct type, f. Qed.

(** C7: checking a value that is not selected and then unchecking it gives
    back the selection it started from, for services and for domains, and
    with it the state and the result of the engine on every event list. *)
Theorem toggle_round_trip (v : string) (type : FilterType)
    (st : PageState Event) :
  v ∉ getFilter (selectedFilters st) type ->
  getFilter
    (selectedFilters
       (handleFilterSelection v type false (handleFilterSelection v type true st)))
    type
  = getFilter (selectedFilters st) type
  /\ handleFilterSelection v type false (handleFilterSelection v type true st) = st
  /\ forall E,
       getFilteredEvents E
         (handleFilterSelection v type false (handleFilterSelection v type true st))
       = getFilteredEvents E st.
Proof.
  intros Hv.
  assert (handleFilterSelection v type false
            (handleFilterSelection v type true st) = st) as Hst.
  { unfold handleFilterSelection, setSelectedFilters. simpl.
    rewrite getFilter_setFilter, (remove_appended _ _ Hv), setFilter_twice.
    by destruct st. }
  rewrite Hst. done.
Qed.

Lemma toggle_round_trip_witness :
  handleFilterSelection "BillingService" FServices false
    (handleFilterSelection "BillingService" FServices true
       (stateOf catalog ["OrderService"] ["Orders"] "ship"))
  = stateOf catalog ["OrderService"] ["Orders"] "ship"
  /\ handleFilterSelection "Orders" FDomains false
       (handleFilterSelection "Orders" FDomains true
          (stateOf catalog ["OrderService"] [] "")) 
     = stateOf catalog ["OrderService"] [] "".
Proof.
  split.
  - apply (toggle_round_trip "BillingService" FServices
             (stateOf catalog ["OrderService"] ["Orders"] "ship")).
    simpl. intros H. apply list_elem_of_singleton in H. discriminate.
  - apply (toggle_round_trip "Orders" FDomains
             (stateOf catalog ["OrderService"] [] "")).
    simpl. apply not_elem_of_nil.
Defined.

(** Unchecking removes every occurrence, so the hypothesis is needed. *)
Example toggle_selected_value :
  services (selectedFilters
    (handleFilterSelection "BillingService" FServices false
       (handleFilterSelection "BillingService" FServices true
          (stateOf catalog ["BillingService"] [] "")))) = [].
Proof. reflexivity. Qed.

(** ** Totality and purity *)

Lemma filterThrowing_total {A} (P : A -> Prop) (a : list A)
    (f : A -> Completion bool) :
  (forall x, P x -> exists keep, f x = inr keep) ->
  Forall P a ->
  exists result, filterThrowing a f = inr result /\ Forall P result.
Proof.
  intros Hf. induction 1 as [|x a Hx _ (rest & Hrest & HP)]; simpl.
  - by exists [].
  - destruct (Hf x Hx) as [keep ->]. rewrite Hrest. simpl.
    exists (if keep then x :: rest else rest).
    split; [done|]. destruct keep; [by constructor | done].
Qed.

Lemma serviceCallbackJs_total (serviceFilters : list string) (event : RawEvent) :
  wellFormed event -> exists keep, serviceCallbackJs serviceFilters event = inr keep.
Proof.
  intros (_ & _ & [p Hp] & [c Hc]).
  unfold serviceCallbackJs. rewrite Hp, Hc. by eexists.
Qed.

Lemma domainCallbackJs_total (domainFilters : list string) (event : RawEvent) :
  wellFormed event -> exists keep, domainCallbackJs domainFilters event = inr keep.
Proof. intros _. by eexists. Qed.

Lemma searchCallbackJs_total (text : string) (event : RawEvent) :
  wellFormed event -> exists keep, searchCallbackJs text event = inr keep.
Proof.
  intros ([n Hn] & _). unfold searchCallbackJs. rewrite Hn. by eexists.
Qed.

Lemma getFilteredEventsJs_reads (events : list RawEvent)
    (st st' : PageState RawEvent) :
  selectedFilters st' = selectedFilters st ->
  searchFilter st' = searchFilter st ->
  getFilteredEventsJs events st' = getFilteredEventsJs events st.
Proof.
  intros Hf Hs. unfold getFilteredEventsJs, earlyReturnGuard.
  by rewrite Hf, Hs.
Qed.

Lemma getFilteredEventsJs_total (events : list RawEvent)
    (st : PageState RawEvent) :
  Forall wellFormed events ->
  exists result, getFilteredEventsJs events st = inr result.
Proof.
  intros Hwf. unfold getFilteredEventsJs.
  rewrite earlyReturnGuard_false.
  assert (exists r1,
            (if 0 <? Z.of_nat (length (services (selectedFilters st)))
             then filterThrowing events
                    (serviceCallbackJs (services (selectedFilters st)))
             else ret events) = inr r1 /\ Forall wellFormed r1)
    as (r1 & -> & Hwf1).
  { destruct (0 <? _); [|by exists events].
    apply filterThrowing_total; [apply serviceCallbackJs_total | done]. }
  cbn [bind].
  assert (exists r2,
            (if 0 <? Z.of_nat (length (domains (selectedFilters st)))
             then filterThrowing r1
                    (domainCallbackJs (domains (selectedFilters st)))
             else ret r1) = inr r2 /\ Forall wellFormed r2)
    as (r2 & -> & Hwf2).
  { destruct (0 <? _); [|by exists r1].
    apply filterThrowing_total; [apply domainCallbackJs_total | done]. }
  cbn [bind].
  assert (exists r3,
            (if ToBoolean (VString (searchFilter st))
             then filterThrowing r2 (searchCallbackJs (searchFilter st))
             else ret r2) = inr r3 /\ Forall wellFormed r3)
    as (r3 & -> & Hwf3).
  { destruct (ToBoolean _); [|by exists r2].
    apply filterThrowing_total; [apply searchCallbackJs_total | done]. }
  by exists r3.
Qed.

(** On typed events the untyped run is the typed function. *)
Lemma filterThrowing_typed (l : list Event) (fJs : RawEvent -> Completion bool)
    (f : Event -> bool) :
  (forall e, fJs (toRaw e) = inr (f e)) ->
  filterThrowing (toRaw <$> l) fJs = inr (toRaw <$> Arr.filter l f).
Proof.
  intros Hf. unfold Arr.filter.
  induction l as [|e l IH]; [done|].
  rewrite fmap_cons. cbn [filterThrowing List.filter].
  rewrite Hf. cbn [bind]. rewrite IH. cbn [bind].
  by destruct (f e).
Qed.

Lemma getFilteredEventsJs_typed (E : list Event) (st : PageState Event)
    (st' : PageState RawEvent) :
  selectedFilters st' = selectedFilters st ->
  searchFilter st' = searchFilter st ->
  getFilteredEventsJs (toRaw <$> E) st' = inr (toRaw <$> getFilteredEvents E st).
Proof.
  intros Hf Hs.
  rewrite getFilteredEvents_passes.
  unfold getFilteredEventsJs, servicePass, domainPass, searchPass.
  rewrite earlyReturnGuard_false, Hf, Hs.
  destruct (0 <? Z.of_nat (length (services _))).
  all: destruct (0 <? Z.of_nat (length (domains _))).
  all: destruct (ToBoolean _).
  all: simpl.
  all: repeat (erewrite filterThrowing_typed by (intros e; reflexivity); simpl).
  all: reflexivity.
Qed.

(** C8: on events that each have a name, a domain and both lists, the
    engine returns a result and throws nothing, and every state with the
    same selected filters and the same search text gives that same result:
    nothing else is read. *)
Theorem getFilteredEvents_pure_total (events : list RawEvent)
    (st : PageState RawEvent) :
  Forall wellFormed events ->
  exists result,
    getFilteredEventsJs events st = inr result
    /\ forall st' : PageState RawEvent,
         selectedFilters st' = selectedFilters st ->
         searchFilter st' = searchFilter st ->
         getFilteredEventsJs events st' = inr result.
Proof.
  intros Hwf.
  destruct (getFilteredEventsJs_total events st Hwf) as [result Hresult].
  exists result. split; [done|].
  intros st' Hf Hs. by rewrite (getFilteredEventsJs_reads events st st' Hf Hs).
Qed.

Lemma getFilteredEvents_pure_total_witness :
  exists result,
    getFilteredEventsJs (toRaw <$> catalog)
      {| selectedFilters := {| services := ["BillingService"]; domains := ["Orders"] |};
         showMermaidDiagrams := false;
         eventsToRender := [];
         searchFilter := "order" |} = inr result
    /\ forall st' : PageState RawEvent,
         selectedFilters st' = {| services := ["BillingService"]; domains := ["Orders"] |} ->
         searchFilter st' = "order" ->
         getFilteredEventsJs (toRaw <$> catalog) st' = inr result.
Proof.
  apply (getFilteredEvents_pure_total (toRaw <$> catalog)
           {| selectedFilters :=
                {| services := ["BillingService"]; domains := ["Orders"] |};
              showMermaidDiagrams := false;
              eventsToRender := [];
              searchFilter := "order" |}).
  repeat constructor; simpl; by eexists.
Defined.

(** ** The first line of the engine *)

(** C9: the guard of the early return is false in every state, because an
    array is truthy whatever it holds; the engine is the three passes alone,
    and in an unconstrained state each pass hands its input on, which is
    where the identity comes from. *)
Theorem early_return_unreachable :
  (forall st : PageState Event, earlyReturnGuard st = false)
  /\ (forall a : list string, ToBoolean (VArray a) = true)
  /\ (forall E st, getFilteredEvents E st = getFilteredEvents_noGuard E st)
  /\ (forall (E : list Event) st,
        unconstrained st ->
        servicePass st E = E /\ domainPass st E = E /\ searchPass st E = E
        /\ getFilteredEvents_noGuard E st = E).
Proof.
  repeat split; try done.
  all: destruct H as (Hsvc & Hdom & Htext).
  all: unfold getFilteredEvents_noGuard, filterPasses, servicePass, domainPass,
         searchPass.
  all: by rewrite ?Hsvc, ?Hdom, ?Htext.
Qed.

Lemma early_return_unreachable_witness :
  servicePass (initialState catalog) catalog = catalog
  /\ domainPass (initialState catalog) catalog = catalog
  /\ searchPass (initialState catalog) catalog = catalog
  /\ getFilteredEvents_noGuard catalog (initialState catalog) = catalog.
Proof.
  apply (proj2 (proj2 (proj2 early_return_unreachable)) catalog
           (initialState catalog)).
  repeat split.
Defined.

(** ** The result is a subsequence *)

(** C10: the result is a subsequence of [E]: its events are events of [E],
    none occurs more often than in [E], it is no longer than [E], and each
    of the three passes returns a subsequence of what it is given. *)
Theorem result_subsequence (E : list Event) (st : PageState Event) :
  getFilteredEvents E st `sublist_of` E
  /\ getFilteredEvents E st ⊆ E
  /\ getFilteredEvents E st ⊆+ E
  /\ (length (getFilteredEvents E st) <= length E)%nat
  /\ (forall l, servicePass st l `sublist_of` l)
  /\ (forall l, domainPass st l `sublist_of` l)
  /\ (forall l, searchPass st l `sublist_of` l).
Proof.
  pose proof (getFilteredEvents_sublist st E) as Hsub.
  split; [done|].
  split; [by apply sublist_subseteq|].
  split; [by apply sublist_submseteq|].
  split; [by apply sublist_length|].
  split; [apply servicePass_sublist|].
  split; [apply domainPass_sublist | apply searchPass_sublist].
Qed.

(** ** More on [handleFilterSelection] *)

Lemma toggle_members (v : string) (type : FilterType) (isChecked : bool)
    (st : PageState Event) (x : string) :
  x ∈ getFilter (selectedFilters (handleFilterSelection v type isChecked st)) type
  <-> if isChecked
      then x ∈ getFilter (selectedFilters st) type \/ x = v
      else x ∈ getFilter (selectedFilters st) type /\ x <> v.
Proof.
  unfold handleFilterSelection. destruct isChecked; simpl.
  - rewrite getFilter_setFilter. unfold Arr.concat.
    by rewrite elem_of_app, list_elem_of_singleton.
  - rewrite getFilter_setFilter, filter_elem, negb_true_iff.
    destruct (String.eqb_spec x v); split; intros []; split; congruence.
Qed.

(** X1: checking a value adds it to the list of its type and keeps what was
    there; unchecking removes it and keeps every other value. *)
Theorem handleFilterSelection_members (v : string) (type : FilterType)
    (st : PageState Event) (x : string) :
  (x ∈ getFilter (selectedFilters (handleFilterSelection v type true st)) type
   <-> x ∈ getFilter (selectedFilters st) type \/ x = v)
  /\ (x ∈ getFilter (selectedFilters (handleFilterSelection v type false st)) type
      <-> x ∈ getFilter (selectedFilters st) type /\ x <> v).
Proof.
  split.
  - apply (toggle_members v type true).
  - apply (toggle_members v type false).
Qed.

Lemma getFilter_setFilter_other (f : SelectedFilters) (type other : FilterType)
    (l : list string) :
  other <> type -> getFilter (setFilter f type l) other = getFilter f other.
Proof. by destruct type, other. Qed.

Lemma toggle_other (v : string) (type other : FilterType) (isChecked : bool)
    (st : PageState Event) :
  other <> type ->
  getFilter (selectedFilters (handleFilterSelection v type isChecked st)) other
  = getFilter (selectedFilters st) other.
Proof.
  intros Hother. unfold handleFilterSelection.
  destruct isChecked; simpl; by rewrite getFilter_setFilter_other.
Qed.

(** X2: a change of one checkbox touches the list of its own type only: the
    list of the other type, the search text, the diagram flag and the
    events on display stay as they were. *)
Theorem handleFilterSelection_frame (v : string) (type other : FilterType)
    (isChecked : bool) (st : PageState Event) :
  other <> type ->
  getFilter (selectedFilters (handleFilterSelection v type isChecked st)) other
  = getFilter (selectedFilters st) other
  /\ searchFilter (handleFilterSelection v type isChecked st) = searchFilter st
  /\ showMermaidDiagrams (handleFilterSelection v type isChecked st)
     = showMermaidDiagrams st
  /\ eventsToRender (handleFilterSelection v type isChecked st)
     = eventsToRender st.
Proof.
  intros Hother. split; [by apply toggle_other|].
  unfold handleFilterSelection. by destruct isChecked.
Qed.

Lemma handleFilterSelection_frame_witness :
  FDomains <> FServices
  /\ getFilter
       (selectedFilters
          (handleFilterSelection "BillingService" FServices true
             (stateOf catalog [] ["Orders"] "ship")))
       FDomains = ["Orders"].
Proof.
  split; [discriminate|].
  apply (handleFilterSelection_frame "BillingService" FServices FDomains true
           (stateOf catalog [] ["Orders"] "ship")).
  discriminate.
Defined.

Lemma setFilter_getFilter (f : SelectedFilters) (type : FilterType) :
  setFilter f type (getFilter f type) = f.
Proof. by destruct type, f. Qed.

Lemma setFilter_setFilter (f : SelectedFilters) (type : FilterType)
    (l l' : list string) :
  setFilter (setFilter f type l) type l' = setFilter f type l'.
Proof. by destruct type. Qed.

Lemma filter_all {A} (a : list A) (f : A -> bool) :
  (forall x, x ∈ a -> f x = true) -> Arr.filter a f = a.
Proof.
  intros H. unfold Arr.filter. apply forallb_filter_id, forallb_forall.
  intros x Hx. by apply H, list_elem_of_In.
Qed.

Lemma filter_again {A} (a : list A) (f : A -> bool) :
  Arr.filter (Arr.filter a f) f = Arr.filter a f.
Proof. apply filter_all. by intros x [_ Hx]%filter_elem. Qed.

(** X3: unchecking removes every occurrence of the value, so doing it twice
    is doing it once, and unchecking a value that is not selected leaves the
    state as it is. *)
Theorem uncheck_idempotent (v : string) (type : FilterType)
    (st : PageState Event) :
  (v ∉ getFilter (selectedFilters (handleFilterSelection v type false st)) type)
  /\ handleFilterSelection v type false (handleFilterSelection v type false st)
     = handleFilterSelection v type false st
  /\ (v ∉ getFilter (selectedFilters st) type ->
      handleFilterSelection v type false st = st).
Proof.
  split; [|split].
  - rewrite (toggle_members v type false). by intros [_ ?].
  - unfold handleFilterSelection, setSelectedFilters. simpl.
    by rewrite getFilter_setFilter, filter_again, setFilter_setFilter.
  - intros Hv. unfold handleFilterSelection, setSelectedFilters.
    rewrite filter_all, setFilter_getFilter; [by destruct st|].
    intros x Hx. apply negb_true_iff.
    destruct (String.eqb_spec x v); congruence.
Qed.

Lemma uncheck_idempotent_witness :
  ("BillingService" ∉ ["OrderService"])
  /\ handleFilterSelection "BillingService" FServices false
       (stateOf catalog ["OrderService"] [] "")
     = stateOf catalog ["OrderService"] [] "".
Proof.
  assert ("BillingService" ∉ ["OrderService"]) as Hv.
  { intros H. apply list_elem_of_singleton in H. discriminate. }
  split; [exact Hv|].
  exact (proj2 (proj2 (uncheck_idempotent "BillingService" FServices
                         (stateOf catalog ["OrderService"] [] ""))) Hv).
Defined.

Lemma filter_NoDup {A} (a : list A) (f : A -> bool) :
  NoDup a -> NoDup (Arr.filter a f).
Proof. intros H. eapply sublist_NoDup; [exact H | apply filter_sublist]. Qed.

(** X4: a list without duplicates stays without duplicates: always when a
    value is unchecked, and when a value is checked that was not selected. *)
Theorem handleFilterSelection_NoDup (v : string) (type : FilterType)
    (isChecked : bool) (st : PageState Event) :
  NoDup (getFilter (selectedFilters st) type) ->
  (isChecked = true -> v ∉ getFilter (selectedFilters st) type) ->
  NoDup (getFilter (selectedFilters (handleFilterSelection v type isChecked st))
                   type).
Proof.
  intros Hnd Hv. unfold handleFilterSelection.
  destruct isChecked; simpl; rewrite getFilter_setFilter.
  - unfold Arr.concat. apply NoDup_app. split; [done|]. split.
    + intros x Hx ->%list_elem_of_singleton. by apply Hv.
    + apply NoDup_singleton.
  - by apply filter_NoDup.
Qed.

Lemma handleFilterSelection_NoDup_witness :
  NoDup (getFilter
           (selectedFilters
              (handleFilterSelection "BillingService" FServices true
                 (stateOf catalog ["OrderService"] [] "")))
           FServices).
Proof.
  apply (handleFilterSelection_NoDup "BillingService" FServices true
           (stateOf catalog ["OrderService"] [] "")).
  - apply NoDup_singleton.
  - intros _ H. apply list_elem_of_singleton in H. discriminate.
Defined.

(** ** The engine and the selection as a set *)

Lemma serviceCallback_ext (S S' : list string) (e : Event) :
  (forall x, x ∈ S <-> x ∈ S') -> serviceCallback S e = serviceCallback S' e.
Proof.
  intros H. apply eq_true_iff_eq.
  rewrite (serviceCallback_spec (stateOf [] S [] "") e).
  rewrite (serviceCallback_spec (stateOf [] S' [] "") e).
  unfold inSelectedServices. simpl. by setoid_rewrite H.
Qed.

Lemma domainCallback_ext (D D' : list string) (e : Event) :
  (forall x, x ∈ D <-> x ∈ D') -> domainCallback D e = domainCallback D' e.
Proof.
  intros H. apply eq_true_iff_eq. unfold domainCallback.
  by rewrite !indexOf_found.
Qed.

Lemma same_members_empty {A} (l l' : list A) :
  (forall x, x ∈ l <-> x ∈ l') ->
  (0 <? Z.of_nat (length l)) = (0 <? Z.of_nat (length l')).
Proof.
  intros H. destruct l as [|x l], l' as [|y l']; try done.
  - exfalso. eapply not_elem_of_nil. apply H. left.
  - exfalso. eapply not_elem_of_nil. apply H. left.
Qed.

Lemma same_members_same_result (E : list Event) (st st' : PageState Event) :
  (forall x, x ∈ services (selectedFilters st)
             <-> x ∈ services (selectedFilters st')) ->
  (forall x, x ∈ domains (selectedFilters st)
             <-> x ∈ domains (selectedFilters st')) ->
  searchFilter st = searchFilter st' ->
  getFilteredEvents E st = getFilteredEvents E st'.
Proof.
  intros Hsvc Hdom Htext.
  rewrite !getFilteredEvents_passes.
  unfold servicePass, domainPass, searchPass.
  rewrite (same_members_empty _ _ Hsvc), (same_members_empty _ _ Hdom), Htext.
  assert (forall l, Arr.filter l (serviceCallback (services (selectedFilters st)))
                    = Arr.filter l (serviceCallback (services (selectedFilters st'))))
    as ->.
  { intros l. apply filter_ext. intros e. by apply serviceCallback_ext. }
  assert (forall l, Arr.filter l (domainCallback (domains (selectedFilters st)))
                    = Arr.filter l (domainCallback (domains (selectedFilters st'))))
    as ->; [|done].
  intros l. apply filter_ext. intros e. by apply domainCallback_ext.
Qed.

(** X5: the engine reads the two selections as sets: states whose lists
    have the same members, in whatever order and with whatever repetition,
    and the same search text give the same result. *)
Theorem selection_as_set (E : list Event) (st st' : PageState Event) :
  (forall type x,
     x ∈ getFilter (selectedFilters st) type
     <-> x ∈ getFilter (selectedFilters st') type) ->
  searchFilter st = searchFilter st' ->
  getFilteredEvents E st = getFilteredEvents E st'.
Proof.
  intros Hmem Htext. apply same_members_same_result; [| |done].
  - intros x. apply (Hmem FServices).
  - intros x. apply (Hmem FDomains).
Qed.

Lemma selection_as_set_witness :
  getFilteredEvents catalog
    (stateOf catalog ["BillingService"; "ShippingService"] [] "")
  = getFilteredEvents catalog
      (stateOf catalog ["ShippingService"; "BillingService"; "ShippingService"]
               [] "").
Proof.
  apply (selection_as_set catalog
           (stateOf catalog ["BillingService"; "ShippingService"] [] "")
           (stateOf catalog ["ShippingService"; "BillingService"; "ShippingService"]
                    [] "")); [|done].
  intros [] x; simpl; [|done].
  rewrite !elem_of_cons, elem_of_nil. tauto.
Defined.

(** X6: two changes of different checkboxes can be made in either order:
    the result of the engine is the same. *)
Theorem toggles_commute (E : list Event) (st : PageState Event)
    (v1 v2 : string) (t1 t2 : FilterType) (c1 c2 : bool) :
  t1 <> t2 \/ v1 <> v2 ->
  getFilteredEvents E
    (handleFilterSelection v1 t1 c1 (handleFilterSelection v2 t2 c2 st))
  = getFilteredEvents E
      (handleFilterSelection v2 t2 c2 (handleFilterSelection v1 t1 c1 st)).
Proof.
  intros Hdiff.
  assert (forall t x,
            x ∈ getFilter (selectedFilters
                  (handleFilterSelection v1 t1 c1
                     (handleFilterSelection v2 t2 c2 st))) t
            <-> x ∈ getFilter (selectedFilters
                      (handleFilterSelection v2 t2 c2
                         (handleFilterSelection v1 t1 c1 st))) t) as Hmem.
  { intros t x.
    destruct (decide (t = t1)) as [Ht1|Ht1], (decide (t = t2)) as [Ht2|Ht2];
      subst.
    - destruct Hdiff as [?|Hv]; [done|].
      destruct c1, c2;
        repeat (rewrite toggle_members; cbn match); intuition congruence.
    - rewrite toggle_members, (toggle_other v2 t2 t1) by done.
      rewrite (toggle_other v2 t2 t1) by done. by rewrite toggle_members.
    - rewrite (toggle_other v1 t1 t2) by done.
      rewrite (toggle_members v2 t2 c2), (toggle_members v2 t2 c2).
      by rewrite (toggle_other v1 t1 t2) by done.
    - by rewrite !toggle_other by done. }
  apply same_members_same_result.
  - intros x. apply (Hmem FServices).
  - intros x. apply (Hmem FDomains).
  - by destruct c1, c2.
Qed.

Lemma toggles_commute_witness :
  getFilteredEvents catalog
    (handleFilterSelection "BillingService" FServices true
       (handleFilterSelection "ShippingService" FServices true
          (initialState catalog)))
  = getFilteredEvents catalog
      (handleFilterSelection "ShippingService" FServices true
         (handleFilterSelection "BillingService" FServices true
            (initialState catalog))).
Proof.
  apply (toggles_commute catalog (initialState catalog)
           "BillingService" "ShippingService" FServices FServices true true).
  right. discriminate.
Defined.

(** ** Narrowing and widening *)

Lemma filter_sublist_mono {A} (l l' : list A) (f g : A -> bool) :
  l `sublist_of` l' ->
  (forall x, f x = true -> g x = true) ->
  Arr.filter l f `sublist_of` Arr.filter l' g.
Proof.
  intros Hsub Hfg. unfold Arr.filter.
  induction Hsub as [|x l l' _ IH|x l l' _ IH]; simpl.
  - constructor.
  - destruct (f x) eqn:Hf.
    + rewrite (Hfg x Hf). by constructor.
    + destruct (g x); [by constructor | done].
  - destruct (g x); [by constructor | done].
Qed.

Lemma append_assoc (s t u : string) : (s +:+ t) +:+ u = s +:+ t +:+ u.
Proof.
  induction s as [|a s IH]; [done|]. by rewrite !append_cons, IH.
Qed.

Lemma matchesSearch_contained (st st' : PageState Event) (e : Event) :
  (exists pre post,
     Str.toLowerCase (searchFilter st)
     = pre +:+ Str.toLowerCase (searchFilter st') +:+ post) ->
  matchesSearch st e -> matchesSearch st' e.
Proof.
  intros (pre & post & Hs) (a & b & Hm). unfold matchesSearch.
  rewrite Hs in Hm. exists (a +:+ pre), (post +:+ b).
  by rewrite Hm, !append_assoc.
Qed.

Lemma servicePass_mono (st st' : PageState Event) (l l' : list Event) :
  services (selectedFilters st') = []
  \/ (services (selectedFilters st) <> []
      /\ services (selectedFilters st) ⊆ services (selectedFilters st')) ->
  l `sublist_of` l' ->
  servicePass st l `sublist_of` servicePass st' l'.
Proof.
  intros Hsvc Hsub. unfold servicePass at 2.
  destruct (0 <? _) eqn:Hlen'.
  - apply length_positive in Hlen'.
    destruct Hsvc as [?|[Hne Hincl]]; [done|].
    unfold servicePass. apply length_positive in Hne. rewrite Hne.
    apply filter_sublist_mono; [done|].
    intros e. rewrite (serviceCallback_spec st), (serviceCallback_spec st').
    unfold inSelectedServices.
    intros [(p & ? & ?)|(c & ? & ?)]; [left; exists p | right; exists c];
      split; auto.
  - etrans; [apply servicePass_sublist | done].
Qed.

Lemma domainPass_mono (st st' : PageState Event) (l l' : list Event) :
  domains (selectedFilters st') = []
  \/ (domains (selectedFilters st) <> []
      /\ domains (selectedFilters st) ⊆ domains (selectedFilters st')) ->
  l `sublist_of` l' ->
  domainPass st l `sublist_of` domainPass st' l'.
Proof.
  intros Hdom Hsub. unfold domainPass at 2.
  destruct (0 <? _) eqn:Hlen'.
  - apply length_positive in Hlen'.
    destruct Hdom as [?|[Hne Hincl]]; [done|].
    unfold domainPass. apply length_positive in Hne. rewrite Hne.
    apply filter_sublist_mono; [done|].
    intros e. rewrite (domainCallback_spec st), (domainCallback_spec st').
    unfold inSelectedDomains. auto.
  - etrans; [apply domainPass_sublist | done].
Qed.

Lemma searchPass_mono (st st' : PageState Event) (l l' : list Event) :
  searchFilter st' = EmptyString
  \/ (searchFilter st <> EmptyString
      /\ exists pre post,
           Str.toLowerCase (searchFilter st)
           = pre +:+ Str.toLowerCase (searchFilter st') +:+ post) ->
  l `sublist_of` l' ->
  searchPass st l `sublist_of` searchPass st' l'.
Proof.
  intros Htext Hsub. unfold searchPass at 2.
  destruct (ToBoolean _) eqn:Htruthy'.
  - apply ToBoolean_string in Htruthy'.
    destruct Htext as [?|[Hne Hin]]; [done|].
    unfold searchPass. apply ToBoolean_string in Hne. rewrite Hne.
    apply filter_sublist_mono; [done|].
    intros e. rewrite (searchCallback_spec st), (searchCallback_spec st').
    by apply matchesSearch_contained.
  - etrans; [apply searchPass_sublist | done].
Qed.

(** X7: a state that constrains at least as much as another one, in each
    dimension, shows a subsequence of what the other one shows. So fewer
    selected values in a list that keeps one never bring an event in,
    neither does the first value selected in a list, and neither does a
    search text whose lower-casing contains the lower-casing of the other
    one. *)
Theorem narrower_state_smaller_result (E : list Event)
    (st st' : PageState Event) :
  narrows st st' ->
  getFilteredEvents E st `sublist_of` getFilteredEvents E st'.
Proof.
  intros (Hsvc & Hdom & Htext).
  rewrite !getFilteredEvents_passes.
  apply searchPass_mono; [done|].
  apply domainPass_mono; [done|].
  by apply servicePass_mono.
Qed.

Lemma narrower_state_smaller_result_witness :
  getFilteredEvents catalog (stateOf catalog ["BillingService"] [] "ordership")
    `sublist_of`
  getFilteredEvents catalog
    (stateOf catalog ["BillingService"; "ShippingService"] [] "ship").
Proof.
  apply (narrower_state_smaller_result catalog
           (stateOf catalog ["BillingService"] [] "ordership")
           (stateOf catalog ["BillingService"; "ShippingService"] [] "ship")).
  split; [|split]; simpl.
  - right. split; [done|]. intros x ->%list_elem_of_singleton. left.
  - by left.
  - right. split; [done|]. by exists "order", "".
Defined.

(** ** The engine on its own result and on parts of the list *)

(** X8: filtering the result again with the same state changes nothing. *)
Theorem getFilteredEvents_idempotent (E : list Event) (st : PageState Event) :
  getFilteredEvents (getFilteredEvents E st) st = getFilteredEvents E st.
Proof.
  rewrite !getFilteredEvents_passes.
  destruct (servicePass_filter st) as [f Hf].
  destruct (domainPass_filter st) as [g Hg].
  destruct (searchPass_filter st) as [h Hh].
  rewrite !Hf, !Hg, !Hh.
  set (R := Arr.filter (Arr.filter (Arr.filter E f) g) h).
  assert (Arr.filter R f = R) as ->.
  { apply filter_all. intros x Hx.
    apply filter_elem in Hx as [Hx _]. apply filter_elem in Hx as [Hx _].
    by apply filter_elem in Hx as [_ Hx]. }
  assert (Arr.filter R g = R) as ->.
  { apply filter_all. intros x Hx.
    apply filter_elem in Hx as [Hx _]. by apply filter_elem in Hx as [_ Hx]. }
  apply filter_all. intros x Hx. by apply filter_elem in Hx as [_ Hx].
Qed.

(** X9: each event is judged on its own: the result on a list put together
    from two parts is the two results put together, and on no events it is
    empty, whatever the state. *)
Theorem getFilteredEvents_app (E1 E2 : list Event) (st : PageState Event) :
  getFilteredEvents (E1 ++ E2) st
  = getFilteredEvents E1 st ++ getFilteredEvents E2 st
  /\ getFilteredEvents [] st = [].
Proof.
  rewrite !getFilteredEvents_passes.
  destruct (servicePass_filter st) as [f Hf].
  destruct (domainPass_filter st) as [g Hg].
  destruct (searchPass_filter st) as [h Hh].
  rewrite !Hf, !Hg, !Hh. unfold Arr.filter.
  by rewrite !List.filter_app.
Qed.

(** ** Events that cannot pass *)

(** X10: once a service is selected, an event that names no producer and no
    consumer is never shown. *)
Theorem no_service_event_dropped (E : list Event) (st : PageState Event)
    (e : Event) :
  services (selectedFilters st) <> [] ->
  producerNames e = [] ->
  consumerNames e = [] ->
  e ∉ getFilteredEvents E st.
Proof.
  intros Hsvc Hp Hc. rewrite getFilteredEvents_elem.
  intros (_ & [?|Hin] & _); [done|].
  unfold inSelectedServices in Hin. rewrite Hp, Hc in Hin.
  destruct Hin as [(x & Hx & _)|(x & Hx & _)]; by apply elem_of_nil in Hx.
Qed.

Lemma no_service_event_dropped_witness :
  {| name := "Lonely"; domain := "Orders";
     producerNames := []; consumerNames := [] |}
  ∉ getFilteredEvents
      [{| name := "Lonely"; domain := "Orders";
          producerNames := []; consumerNames := [] |}]
      (stateOf catalog ["OrderService"] [] "").
Proof.
  apply (no_service_event_dropped
           [{| name := "Lonely"; domain := "Orders";
               producerNames := []; consumerNames := [] |}]
           (stateOf catalog ["OrderService"] [] "")); done.
Defined.

Lemma length_append (s t : string) :
  String.length (s +:+ t) = (String.length s + String.length t)%nat.
Proof.
  induction s as [|a s IH]; [done|]. rewrite append_cons. simpl. by rewrite IH.
Qed.

(** X11: an event whose lower-cased name is shorter than the lower-cased
    search text is never shown. *)
Theorem long_search_drops (E : list Event) (st : PageState Event) (e : Event) :
  (String.length (Str.toLowerCase (name e))
   < String.length (Str.toLowerCase (searchFilter st)))%nat ->
  e ∉ getFilteredEvents E st.
Proof.
  intros Hlen. rewrite getFilteredEvents_elem.
  intros (_ & _ & _ & pre & post & Hm).
  apply (f_equal String.length) in Hm.
  rewrite !length_append in Hm. lia.
Qed.

Lemma long_search_drops_witness :
  OrderCreated ∉ getFilteredEvents catalog (stateOf catalog [] [] "OrderCreated!").
Proof.
  apply (long_search_drops catalog (stateOf catalog [] [] "OrderCreated!")).
  simpl. lia.
Defined.

(** X12: while the flag [filtersApplied] is unset, the result is what the
    domain pass alone gives: all the events when no domain is selected, and
    otherwise the events of the selected domains, although the flag says
    that nothing is filtered. *)
Theorem unflagged_result_is_domain_pass (E : list Event)
    (st : PageState Event) :
  filtersApplied st = false ->
  getFilteredEvents E st = domainPass st E
  /\ forall e,
       e ∈ getFilteredEvents E st
       <-> e ∈ E /\ (domains (selectedFilters st) = [] \/ inSelectedDomains st e).
Proof.
  intros Hflag. unfold filtersApplied in Hflag.
  apply orb_false_iff in Hflag as [Htext Hsvc].
  assert (getFilteredEvents E st = domainPass st E) as Heq.
  { rewrite getFilteredEvents_passes. unfold servicePass, searchPass.
    by rewrite Htext, Hsvc. }
  split; [done|]. intros e. rewrite Heq. apply domainPass_elem.
Qed.

Lemma unflagged_result_is_domain_pass_witness :
  filtersApplied (stateOf catalog [] ["Orders"] "") = false
  /\ getFilteredEvents catalog (stateOf catalog [] ["Orders"] "")
     = domainPass (stateOf catalog [] ["Orders"] "") catalog.
Proof.
  split; [reflexivity|].
  apply (unflagged_result_is_domain_pass catalog
           (stateOf catalog [] ["Orders"] "")).
  reflexivity.
Defined.

(** ** Events with missing fields *)

Lemma filterThrowing_pure {A} (a : list A) (f : A -> Completion bool)
    (g : A -> bool) :
  (forall x, f x = inr (g x)) -> filterThrowing a f = inr (Arr.filter a g).
Proof.
  intros Hf. unfold Arr.filter.
  induction a as [|x a IH]; [done|].
  cbn [filterThrowing List.filter]. rewrite Hf. cbn [bind].
  rewrite IH. cbn [bind]. by destruct (g x).
Qed.

Lemma filterThrowing_throws {A} (a : list A) (f : A -> Completion bool) :
  filterThrowing a f = inl TypeError <-> exists x, x ∈ a /\ f x = inl TypeError.
Proof.
  induction a as [|x a IH]; cbn [filterThrowing].
  - split; [discriminate | intros (x & Hx & _); by apply elem_of_nil in Hx].
  - destruct (f x) as [[]|keep] eqn:Hfx; cbn [bind].
    + split; [|done]. intros _. exists x. split; [left | done].
    + destruct (filterThrowing a f) as [[]|rest]; cbn [bind].
      * split; [|done]. intros _.
        destruct (proj1 IH eq_refl) as (y & Hy & Hfy).
        exists y. split; [by right | done].
      * split; [discriminate|].
        intros (y & Hy & Hfy). apply elem_of_cons in Hy as [->|Hy].
        -- congruence.
        -- assert (@inr Thrown _ rest = inl TypeError) as Habs; [|done].
           apply IH. by exists y.
Qed.

(** The test of the domain pass on an event that may lack its domain. *)
Lemma domainCallbackJs_spec (D : list string) (ev : RawEvent) :
  exists keep,
    domainCallbackJs D ev = inr keep
    /\ (keep = true <-> exists d, rawDomain ev = Some d /\ d ∈ D).
Proof.
  unfold domainCallbackJs. eexists. split; [done|].
  destruct (rawDomain ev) as [d|].
  - rewrite indexOf_found. split; [by exists d | by intros (? & [= <-] & ?)].
  - split; [done | by intros (? & [=] & _)].
Qed.

Lemma domainPassJs_total (events : list RawEvent) (st : PageState RawEvent) :
  exists result,
    (if 0 <? Z.of_nat (length (domains (selectedFilters st)))
     then filterThrowing events (domainCallbackJs (domains (selectedFilters st)))
     else ret events) = inr result
    /\ forall ev,
         ev ∈ result
         <-> ev ∈ events
             /\ (domains (selectedFilters st) = []
                 \/ exists d, rawDomain ev = Some d
                              /\ d ∈ domains (selectedFilters st)).
Proof.
  destruct (0 <? _) eqn:Hlen.
  - apply length_positive in Hlen.
    eexists. split; [by apply filterThrowing_pure|].
    intros ev. rewrite filter_elem.
    destruct (domainCallbackJs_spec (domains (selectedFilters st)) ev)
      as (keep & Hkeep & Hspec).
    injection Hkeep as <-. rewrite Hspec. tauto.
  - exists events. split; [done|]. intros ev.
    destruct (domains (selectedFilters st)); [tauto|].
    apply Z.ltb_ge in Hlen. simpl in Hlen. lia.
Qed.

(** X13: a missing domain is no error. With no service selected and an
    empty search text the run never throws, on any events, and once a domain
    is selected the events without a domain are left out. *)
Theorem missing_domain_tolerated (events : list RawEvent)
    (st : PageState RawEvent) :
  services (selectedFilters st) = [] ->
  searchFilter st = EmptyString ->
  exists result,
    getFilteredEventsJs events st = inr result
    /\ forall ev,
         ev ∈ result
         <-> ev ∈ events
             /\ (domains (selectedFilters st) = []
                 \/ exists d, rawDomain ev = Some d
                              /\ d ∈ domains (selectedFilters st)).
Proof.
  intros Hsvc Htext.
  destruct (domainPassJs_total events st) as (result & Hresult & Hspec).
  exists result. split; [|done].
  unfold getFilteredEventsJs.
  rewrite earlyReturnGuard_false, Hsvc, Htext.
  change (0 <? Z.of_nat (length (@nil string))) with false.
  change (ToBoolean (VString EmptyString)) with false.
  unfold ret in *. cbn [bind]. rewrite Hresult. done.
Qed.

Lemma missing_domain_tolerated_witness :
  exists result,
    getFilteredEventsJs
      [{| rawName := None; rawDomain := None;
          rawProducerNames := None; rawConsumerNames := None |}]
      {| selectedFilters := {| services := []; domains := ["Orders"] |};
         showMermaidDiagrams := false; eventsToRender := [];
         searchFilter := "" |} = inr result
    /\ forall ev,
         ev ∈ result
         <-> ev ∈ [{| rawName := None; rawDomain := None;
                      rawProducerNames := None; rawConsumerNames := None |}]
             /\ (["Orders"] = []
                 \/ exists d, rawDomain ev = Some d /\ d ∈ ["Orders"]).
Proof.
  apply (missing_domain_tolerated
           [{| rawName := None; rawDomain := None;
               rawProducerNames := None; rawConsumerNames := None |}]
           {| selectedFilters := {| services := []; domains := ["Orders"] |};
              showMermaidDiagrams := false; eventsToRender := [];
              searchFilter := "" |}); reflexivity.
Defined.

Lemma serviceCallbackJs_throws (S : list string) (ev : RawEvent) :
  serviceCallbackJs S ev = inl TypeError
  <-> rawConsumerNames ev = None \/ rawProducerNames ev = None.
Proof.
  unfold serviceCallbackJs.
  destruct (rawConsumerNames ev), (rawProducerNames ev); simpl;
    split; intros H; try done; try (by destruct H); auto.
Qed.

(** X14: once a service is selected, the run throws a [TypeError] as soon
    as one event of the list lacks [consumerNames] or [producerNames],
    whatever else is selected; with an empty search text these are the only
    runs that throw. *)
Theorem missing_names_throw (events : list RawEvent) (st : PageState RawEvent) :
  services (selectedFilters st) <> [] ->
  ((exists ev, ev ∈ events
               /\ (rawConsumerNames ev = None \/ rawProducerNames ev = None)) ->
   getFilteredEventsJs events st = inl TypeError)
  /\ (searchFilter st = EmptyString ->
      getFilteredEventsJs events st = inl TypeError ->
      exists ev, ev ∈ events
                 /\ (rawConsumerNames ev = None \/ rawProducerNames ev = None)).
Proof.
  intros Hsvc. apply length_positive in Hsvc.
  unfold getFilteredEventsJs. rewrite earlyReturnGuard_false, Hsvc.
  destruct (filterThrowing events _) as [[]|r1] eqn:Hpass.
  - apply filterThrowing_throws in Hpass as (ev & Hev & Hthrow).
    apply serviceCallbackJs_throws in Hthrow.
    split; [done|]. intros _ _. by exists ev.
  - split.
    + intros (ev & Hev & Hmiss). exfalso.
      assert (filterThrowing events
                (serviceCallbackJs (services (selectedFilters st)))
              = inl TypeError) as Hthrow; [|congruence].
      apply filterThrowing_throws. exists ev. split; [done|].
      by apply serviceCallbackJs_throws.
    + intros Htext. cbn [bind].
      destruct (domainPassJs_total r1 st) as (r2 & Hpass2 & _).
      unfold ret in *. rewrite Hpass2, Htext. done.
Qed.

Lemma missing_names_throw_witness :
  getFilteredEventsJs (toRaw OrderCreated :: [orphan])
    {| selectedFilters := {| services := ["Nobody"]; domains := ["Shipping"] |};
       showMermaidDiagrams := false; eventsToRender := [];
       searchFilter := "zzz" |} = inl TypeError.
Proof.
  apply (missing_names_throw (toRaw OrderCreated :: [orphan])
           {| selectedFilters :=
                {| services := ["Nobody"]; domains := ["Shipping"] |};
              showMermaidDiagrams := false; eventsToRender := [];
              searchFilter := "zzz" |}); [discriminate|].
  exists orphan. split; [right; left | by left].
Defined.

Lemma searchCallbackJs_throws (text : string) (ev : RawEvent) :
  searchCallbackJs text ev = inl TypeError <-> rawName ev = None.
Proof.
  unfold searchCallbackJs. destruct (rawName ev); simpl; split; done.
Qed.

(** X15: with a search text and no service selected, the run throws exactly
    when an event without a name reaches the text pass: an event without a
    name that the domain pass has removed does no harm. *)
Theorem missing_name_throws (events : list RawEvent) (st : PageState RawEvent) :
  services (selectedFilters st) = [] ->
  searchFilter st <> EmptyString ->
  getFilteredEventsJs events st = inl TypeError
  <-> exists ev,
        ev ∈ events /\ rawName ev = None
        /\ (domains (selectedFilters st) = []
            \/ exists d, rawDomain ev = Some d
                         /\ d ∈ domains (selectedFilters st)).
Proof.
  intros Hsvc Htext. apply ToBoolean_string in Htext.
  unfold getFilteredEventsJs.
  rewrite earlyReturnGuard_false, Hsvc, Htext.
  change (0 <? Z.of_nat (length (@nil string))) with false.
  destruct (domainPassJs_total events st) as (r2 & Hpass2 & Hr2).
  unfold ret in *. cbn [bind]. rewrite Hpass2. cbn [bind].
  destruct (filterThrowing r2 _) as [[]|r3] eqn:Hpass; cbn [bind].
  - apply filterThrowing_throws in Hpass as (ev & Hev & Hthrow).
    apply searchCallbackJs_throws in Hthrow. apply Hr2 in Hev as [Hev Hdom].
    split; [|done]. intros _. by exists ev.
  - split; [discriminate|]. intros (ev & Hev & Hname & Hdom). exfalso.
    assert (filterThrowing r2 (searchCallbackJs (searchFilter st))
            = inl TypeError) as Hthrow; [|congruence].
    apply filterThrowing_throws. exists ev. split.
    + by apply Hr2.
    + by apply searchCallbackJs_throws.
Qed.

Lemma missing_name_throws_witness :
  getFilteredEventsJs
    [{| rawName := None; rawDomain := Some "Orders";
        rawProducerNames := None; rawConsumerNames := None |}]
    {| selectedFilters := {| services := []; domains := ["Shipping"] |};
       showMermaidDiagrams := false; eventsToRender := [];
       searchFilter := "ship" |} <> inl TypeError.
Proof.
  intros Hthrow.
  apply (missing_name_throws
           [{| rawName := None; rawDomain := Some "Orders";
               rawProducerNames := None; rawConsumerNames := None |}]
           {| selectedFilters := {| services := []; domains := ["Shipping"] |};
              showMermaidDiagrams := false; eventsToRender := [];
              searchFilter := "ship" |}) in Hthrow; [|reflexivity|discriminate].
  destruct Hthrow as (ev & Hev & _ & [Hdom|(d & Hd & Hin)]); [discriminate|].
  apply list_elem_of_singleton in Hev as ->. simpl in Hd, Hin.
  injection Hd as <-. apply list_elem_of_singleton in Hin. discriminate.
Defined.

(** ** The page over a session *)

Lemma renderEffect_shows (events : list Event) (st : PageState Event) :
  eventsToRender (renderEffect events st)
  = getFilteredEvents events (renderEffect events st).
Proof. unfold renderEffect. simpl. by apply getFilteredEvents_reads. Qed.

Lemma dispatch_shows (events : list Event) (st : PageState Event) (e : UiEvent) :
  eventsToRender st = getFilteredEvents events st ->
  eventsToRender (dispatch events st e)
  = getFilteredEvents events (dispatch events st e).
Proof.
  intros Hinv. destruct e as [v type c|text|c]; simpl.
  - apply renderEffect_shows.
  - destruct (String.eqb _ _); [done | apply renderEffect_shows].
  - rewrite Hinv. by apply getFilteredEvents_reads.
Qed.

Lemma session_snoc (events : list Event) (trace : list UiEvent) (e : UiEvent) :
  session events (trace ++ [e]) = dispatch events (session events trace) e.
Proof. unfold session. by rewrite fold_left_app. Qed.

Lemma session_shows (events : list Event) (trace : list UiEvent) :
  eventsToRender (session events trace)
  = getFilteredEvents events (session events trace).
Proof.
  induction trace as [|e trace IH] using rev_ind.
  - apply renderEffect_shows.
  - rewrite session_snoc. by apply dispatch_shows.
Qed.

(** X16: after the first render and after any sequence of checkbox changes,
    search texts and diagram toggles, the events on display are the result
    of the engine for the selection and the search text of that moment, a
    subsequence of all the events. *)
Theorem session_shows_result (events : list Event) (trace : list UiEvent) :
  eventsToRender (session events trace)
  = getFilteredEvents events (session events trace)
  /\ eventsToRender (session events trace) `sublist_of` events.
Proof.
  pose proof (session_shows events trace) as Hinv.
  split; [done|]. rewrite Hinv. apply getFilteredEvents_sublist.
Qed.

(** X17: the effect changes nothing when it runs again, and on the first
    render it leaves the initial state, which shows every event, as it is. *)
Theorem renderEffect_idempotent (events : list Event) (st : PageState Event) :
  renderEffect events (renderEffect events st) = renderEffect events st
  /\ mount events = initialState events.
Proof.
  split; [|done].
  unfold renderEffect at 1. rewrite <- renderEffect_shows.
  unfold setEventsToRender. by destruct (renderEffect events st).
Qed.

(** ** The checkboxes and the selection *)

Lemma click_mirrors (props : PageProps.t) (dom : Boxes * PageState Event)
    (target : FilterType * nat) :
  NoDup (PageProps.services props) ->
  NoDup (PageProps.domains props) ->
  mirrors props dom -> mirrors props (click props dom target).
Proof.
  intros Hsvc Hdom Hinv.
  assert (forall t, NoDup (optionValues props t)) as Hopts by (by intros []).
  destruct dom as [boxes st], target as [type0 i0]. unfold click.
  destruct (optionValues props type0 !! i0) as [v0|] eqn:Hv0; [|done].
  intros type. destruct (Hinv type) as (Hnd & Hsub & Hbox). simpl in *.
  destruct (decide (type = type0)) as [->|Hne].
  - split; [|split].
    + unfold handleFilterSelection.
      destruct (negb (boxes type0 i0)) eqn:Hc; simpl;
        rewrite getFilter_setFilter.
      * unfold Arr.concat. apply NoDup_app. split; [done|].
        split; [|apply NoDup_singleton].
        intros x Hx ->%list_elem_of_singleton.
        apply (Hbox i0 v0 Hv0) in Hx. apply negb_true_iff in Hc. congruence.
      * by apply filter_NoDup.
    + intros v. rewrite toggle_members.
      destruct (negb (boxes type0 i0)); [|by intros [? _]; auto].
      intros [?| ->]; [auto|]. apply list_elem_of_lookup. by exists i0.
    + intros i v Hv. rewrite toggle_members.
      destruct (decide (i = i0)) as [->|Hi].
      * assert (v = v0) as -> by congruence.
        rewrite bool_decide_eq_true_2 by done.
        destruct (negb (boxes type0 i0)); split; try done; auto.
        by intros [_ ?].
      * rewrite bool_decide_eq_false_2 by (by intros [_ ?]).
        assert (v <> v0) as Hvne.
        { intros ->. apply Hi.
          by apply (NoDup_lookup (optionValues props type0) i i0 v0). }
        rewrite (Hbox i v Hv).
        destruct (negb (boxes type0 i0)); split; tauto.
  - rewrite toggle_other by done. split; [done|]. split; [done|].
    intros i v Hv. rewrite bool_decide_eq_false_2 by (by intros [? _]).
    by apply Hbox.
Qed.

Lemma checkboxes_mirror_invariant (props : PageProps.t)
    (targets : list (FilterType * nat)) :
  NoDup (PageProps.services props) ->
  NoDup (PageProps.domains props) ->
  mirrors props (clicks props targets).
Proof.
  intros Hsvc Hdom. unfold clicks.
  induction targets as [|target targets IH] using rev_ind.
  - intros type. simpl. split; [|split].
    + destruct type; apply NoDup_nil_2.
    + intros v Hv. by destruct type; apply elem_of_nil in Hv.
    + intros i v _. destruct type; simpl; (split; [done|]).
      all: by intros ?%elem_of_nil.
  - rewrite fold_left_app. simpl. by apply click_mirrors.
Qed.

(** X18: when the options of each section are distinct, after any sequence
    of clicks on the checkboxes the two lists mirror the boxes: a box is
    checked exactly when its value is in the list of its section, and each
    list holds option values only and none of them twice. *)
Theorem checkboxes_mirror_selection (props : PageProps.t)
    (targets : list (FilterType * nat)) :
  NoDup (PageProps.services props) ->
  NoDup (PageProps.domains props) ->
  mirrors props (clicks props targets).
Proof. apply checkboxes_mirror_invariant. Qed.

Lemma checkboxes_mirror_selection_witness :
  mirrors
    {| PageProps.events := catalog;
       PageProps.services := ["OrderService"; "BillingService"];
       PageProps.domains := ["Orders"] |}
    (clicks
       {| PageProps.events := catalog;
          PageProps.services := ["OrderService"; "BillingService"];
          PageProps.domains := ["Orders"] |}
       [(FServices, 1%nat); (FDomains, 0%nat); (FServices, 1%nat)]).
Proof.
  apply (checkboxes_mirror_selection
           {| PageProps.events := catalog;
              PageProps.services := ["OrderService"; "BillingService"];
              PageProps.domains := ["Orders"] |}
           [(FServices, 1%nat); (FDomains, 0%nat); (FServices, 1%nat)]); simpl.
  - apply NoDup_cons. split; [|apply NoDup_singleton].
    intros H. apply list_elem_of_singleton in H. discriminate.
  - apply NoDup_singleton.
Defined.

(** Where two options carry the same value, the boxes and the list part. *)
Example equal_options_part :
  let props := {| PageProps.events := catalog;
                  PageProps.services := ["OrderService"; "OrderService"];
                  PageProps.domains := [] |} in
  let dom := clicks props [(FServices, 0%nat); (FServices, 1%nat);
                           (FServices, 0%nat)] in
  fst dom FServices 1%nat = true /\ services (selectedFilters (snd dom)) = [].
Proof. split; reflexivity. Qed.

(** ** [getStaticProps] and the set of service names *)

Lemma add_fold (a acc : list string) :
  NoDup acc ->
  NoDup (fold_left JsSet.add a acc)
  /\ (forall x, x ∈ fold_left JsSet.add a acc <-> x ∈ acc \/ x ∈ a)
  /\ exists r, fold_left JsSet.add a acc = acc ++ r /\ r `sublist_of` a.
Proof.
  revert acc. induction a as [|y a IH]; intros acc Hacc; simpl.
  - split; [done|]. split.
    + intros x. rewrite elem_of_nil. tauto.
    + exists []. by rewrite app_nil_r.
  - unfold JsSet.add at 2 4 6. case_bool_decide as Hy.
    + destruct (IH acc Hacc) as (Hnd & Hmem & r & Hr & Hsub).
      split; [done|]. split.
      * intros x. rewrite Hmem, elem_of_cons.
        split; [tauto|]. intros [?|[->|?]]; auto.
      * exists r. split; [done|]. by constructor.
    + assert (NoDup (acc ++ [y])) as Hacc'.
      { apply NoDup_app. split; [done|]. split; [|apply NoDup_singleton].
        by intros x Hx ->%list_elem_of_singleton. }
      destruct (IH _ Hacc') as (Hnd & Hmem & r & Hr & Hsub).
      split; [done|]. split.
      * intros x.
        rewrite Hmem, elem_of_app, list_elem_of_singleton, elem_of_cons. tauto.
      * exists (y :: r). split; [|by constructor].
        by rewrite Hr, <- app_assoc.
Qed.

Lemma add_fold_NoDup (a acc : list string) :
  NoDup (acc ++ a) -> fold_left JsSet.add a acc = acc ++ a.
Proof.
  revert acc. induction a as [|y a IH]; intros acc Hnd; simpl.
  - by rewrite app_nil_r.
  - unfold JsSet.add at 2. rewrite bool_decide_eq_false_2.
    + rewrite IH; rewrite <- app_assoc; done.
    + apply NoDup_app in Hnd as (_ & Hdisj & _).
      intros Hy. apply (Hdisj y Hy). left.
Qed.

Lemma omap_id_None {A} (l : list (option A)) : omap id (None :: l) = omap id l.
Proof. reflexivity. Qed.

Lemma omap_id_Some {A} (x : A) (l : list (option A)) :
  omap id (Some x :: l) = x :: omap id l.
Proof. reflexivity. Qed.

Lemma add_fold_first (a acc : list string) :
  fold_left JsSet.add a acc
  = acc ++ omap id
             (imap (fun i x =>
                      if bool_decide (x ∈ acc ++ take i a) then None else Some x)
                   a).
Proof.
  revert acc. induction a as [|x a IH]; intros acc.
  - simpl. by rewrite app_nil_r.
  - cbn [fold_left]. rewrite imap_cons.
    change (take 0 (x :: a)) with (@nil string). rewrite (app_nil_r acc).
    unfold JsSet.add at 2. destruct (bool_decide (x ∈ acc)) eqn:Hx.
    + apply bool_decide_eq_true in Hx.
      rewrite IH, omap_id_None. do 2 f_equal. apply imap_ext.
      intros i y _. unfold compose. cbn [take].
      rewrite (bool_decide_ext (y ∈ acc ++ take i a)
                               (y ∈ acc ++ x :: take i a)); [done|].
      rewrite !elem_of_app, elem_of_cons.
      split; [intros [?|?]; auto | intros [?|[->|?]]; auto].
    + rewrite IH, omap_id_Some, <- app_assoc. cbn [app]. do 3 f_equal.
      apply imap_ext. intros i y _. unfold compose. cbn [take].
      by rewrite <- app_assoc.
Qed.

(** X19: the service names that [getStaticProps] hands to the page are the
    names that the library function returned, each one kept at its first
    occurrence and dropped at every later one: every name and no other,
    each one once, in the order of the first occurrences; a list that has
    no duplicates is handed on as it is. The events and the domains are
    handed on untouched. *)
Theorem getStaticProps_services (getAllEvents : list Event)
    (getUniqueServicesNamesFromEvents getUniqueDomainNamesFromEvents
       : list Event -> list string) :
  PageProps.services
    (getStaticProps getAllEvents getUniqueServicesNamesFromEvents
                    getUniqueDomainNamesFromEvents)
  = firstOccurrences (getUniqueServicesNamesFromEvents getAllEvents)
  /\ NoDup (PageProps.services
              (getStaticProps getAllEvents getUniqueServicesNamesFromEvents
                              getUniqueDomainNamesFromEvents))
  /\ (forall x,
        x ∈ PageProps.services
              (getStaticProps getAllEvents getUniqueServicesNamesFromEvents
                              getUniqueDomainNamesFromEvents)
        <-> x ∈ getUniqueServicesNamesFromEvents getAllEvents)
  /\ PageProps.services
       (getStaticProps getAllEvents getUniqueServicesNamesFromEvents
                       getUniqueDomainNamesFromEvents)
     `sublist_of` getUniqueServicesNamesFromEvents getAllEvents
  /\ (NoDup (getUniqueServicesNamesFromEvents getAllEvents) ->
      PageProps.services
        (getStaticProps getAllEvents getUniqueServicesNamesFromEvents
                        getUniqueDomainNamesFromEvents)
      = getUniqueServicesNamesFromEvents getAllEvents)
  /\ PageProps.events
       (getStaticProps getAllEvents getUniqueServicesNamesFromEvents
                       getUniqueDomainNamesFromEvents) = getAllEvents
  /\ PageProps.domains
       (getStaticProps getAllEvents getUniqueServicesNamesFromEvents
                       getUniqueDomainNamesFromEvents)
     = getUniqueDomainNamesFromEvents getAllEvents.
Proof.
  simpl. unfold JsSet.spread, JsSet.ofArray.
  split; [apply (add_fold_first _ [])|].
  destruct (add_fold (getUniqueServicesNamesFromEvents getAllEvents) []
              NoDup_nil_2) as (Hnd & Hmem & r & Hr & Hsub).
  split; [done|]. split.
  - intros x. rewrite Hmem, elem_of_nil. tauto.
  - split; [by rewrite Hr|]. split; [|done].
    intros Hin. by apply (add_fold_NoDup _ []).
Qed.

Lemma getStaticProps_services_witness :
  PageProps.services
    (getStaticProps catalog
       (fun es => flat_map (fun e => producerNames e ++ consumerNames e) es)
       (fun es => domain <$> es))
  = ["OrderService"; "BillingService"; "ShippingService"].
Proof.
  apply (proj1 (proj2 (proj2 (proj2 (proj2
           (getStaticProps_services catalog
              (fun es => flat_map (fun e => producerNames e ++ consumerNames e) es)
              (fun es => domain <$> es))))))).
  simpl. repeat (apply NoDup_cons; split;
                 [rewrite ?elem_of_cons, elem_of_nil; intuition discriminate|]).
  apply NoDup_nil_2.
Defined.

(** ** The checkboxes of the form *)

Lemma renderSection_boxes (section : Filter.Section) :
  from_option id [] (renderSection section)
  = imap (renderOption section) (Filter.options section).
Proof.
  unfold renderSection. by destruct (Filter.options section).
Qed.

Lemma renderFilters_sections (props : PageProps.t) :
  exists secD secS,
    filters props = [secD; secS]
    /\ Filter.id secD = FDomains /\ Filter.id secS = FServices
    /\ Filter.value <$> Filter.options secD = PageProps.domains props
    /\ Filter.value <$> Filter.options secS = PageProps.services props
    /\ renderFilters props
       = imap (renderOption secD) (Filter.options secD)
         ++ imap (renderOption secS) (Filter.options secS).
Proof.
  eexists _, _. split; [reflexivity|]. simpl.
  split; [done|]. split; [done|].
  rewrite <- !list_fmap_compose. simpl.
  split; [apply list_fmap_id|]. split; [apply list_fmap_id|].
  unfold renderFilters, filters.
  rewrite <- !renderSection_boxes. simpl.
  repeat match goal with
         | |- context [renderSection ?s] => destruct (renderSection s)
         end; simpl; by rewrite ?app_nil_r.
Qed.

Lemma inputId_inj (type : FilterType) :
  Inj (=) (=) (fun i : nat => "filter-" +:+ idString type +:+ "-" +:+ pretty i).
Proof.
  intros i j H.
  apply (inj (String.app "filter-")) in H.
  apply (inj (String.app (idString type))) in H.
  apply (inj (String.app "-")) in H.
  by apply (inj pretty) in H.
Qed.

Lemma inputIds_section (section : Filter.Section) :
  inputId <$> imap (renderOption section) (Filter.options section)
  = (fun i : nat => "filter-" +:+ idString (Filter.id section) +:+ "-"
                    +:+ pretty i)
    <$> seq 0 (length (Filter.options section)).
Proof. rewrite fmap_imap, <- imap_seq_0. by apply imap_ext. Qed.

(** X20: the form shows one checkbox for each domain and then one for each
    service, in the order of the props, whether or not a section is left
    out for having no option; the ids of the inputs are pairwise distinct,
    and each label points at its own input. *)
Theorem rendered_checkboxes (props : PageProps.t) :
  defaultValue <$> renderFilters props
  = PageProps.domains props ++ PageProps.services props
  /\ NoDup (inputId <$> renderFilters props)
  /\ Forall (fun box => labelHtmlFor box = inputId box
                        /\ defaultChecked box = false)
            (renderFilters props).
Proof.
  destruct (renderFilters_sections props)
    as (secD & secS & Hfilters & HidD & HidS & HvalD & HvalS & ->).
  split; [|split].
  - rewrite fmap_app, !fmap_imap, <- HvalD, <- HvalS.
    f_equal; by rewrite <- imap_const.
  - rewrite fmap_app, !inputIds_section, HidD, HidS.
    apply NoDup_app. split; [|split].
    + apply (NoDup_fmap_2 _ (Inj0 := inputId_inj _)), NoDup_seq.
    + intros x (i & -> & _)%list_elem_of_fmap (j & Hj & _)%list_elem_of_fmap.
      discriminate.
    + apply (NoDup_fmap_2 _ (Inj0 := inputId_inj _)), NoDup_seq.
  - apply Forall_app. unfold filters in Hfilters.
    injection Hfilters as <- <-.
    split; apply Forall_forall; intros box [i Hi]%list_elem_of_lookup;
      apply list_lookup_imap_Some in Hi as (o & Ho & ->);
      simpl in Ho; apply list_lookup_fmap_Some in Ho as (d & Hd1 & Hd2);
      by subst.
Qed.

(** ** [classNames] *)

Lemma join_empty (a : list string) :
  Forall (fun c => c <> EmptyString) a ->
  Arr.join a " " = EmptyString -> a = [].
Proof.
  destruct 1 as [|x a Hx _]; [done|]. simpl.
  destruct x as [|c x]; [done|]. destruct a; [done|].
  by rewrite append_cons.
Qed.

Lemma truthy_classes (classes : list string) :
  Forall (fun c => c <> EmptyString)
         (Arr.filter classes (fun c => ToBoolean (VString c))).
Proof.
  apply Forall_forall. intros c [_ Hc]%filter_elem.
  by apply ToBoolean_string.
Qed.

(** X21: [classNames] gives the empty string exactly when every class it is
    given is empty. *)
Theorem classNames_empty (classes : list string) :
  classNames classes = EmptyString
  <-> Forall (fun c => c = EmptyString) classes.
Proof.
  unfold classNames. split.
  - intros Hjoin. apply join_empty in Hjoin; [|apply truthy_classes].
    apply Forall_forall. intros c Hc.
    destruct (ToBoolean (VString c)) eqn:Htruthy.
    + assert (c ∈ Arr.filter classes (fun c => ToBoolean (VString c))) as Hin
        by by apply filter_elem.
      rewrite Hjoin in Hin. by apply elem_of_nil in Hin.
    + by destruct c.
  - intros Hall. unfold Arr.filter.
    induction Hall as [|c classes -> _ IH]; [done|]. simpl. exact IH.
Qed.

Lemma words_go_separated (cur : option string) (s t : string) :
  String.words_go cur (s +:+ " " +:+ t)
  = String.words_go cur s ++ String.words t.
Proof.
  revert cur. induction s as [|a s IH]; intros cur.
  - done.
  - rewrite append_cons. simpl. destruct (Ascii.is_space a).
    + by rewrite IH, app_assoc.
    + apply IH.
Qed.

Lemma words_join (a : list string) :
  String.words (Arr.join a " ") = a ≫= String.words.
Proof.
  induction a as [|x a IH]; [done|].
  destruct a as [|y a].
  - simpl. by rewrite app_nil_r.
  - change (Arr.join (x :: y :: a) " ")
      with (x +:+ " " +:+ Arr.join (y :: a) " ").
    unfold String.words at 1. rewrite words_go_separated, IH. done.
Qed.

(** X22: the words of the string that [classNames] gives, as white space
    separates them, are the words of the classes it is given, in their
    order: no class is lost, merged with its neighbour or invented. *)
Theorem classNames_words (classes : list string) :
  String.words (classNames classes) = classes ≫= String.words.
Proof.
  unfold classNames. rewrite words_join. unfold Arr.filter.
  induction classes as [|c classes IH]; [done|].
  rewrite bind_cons. cbn [List.filter]. destruct c as [|a c].
  - change (ToBoolean (VString EmptyString)) with false. cbv iota.
    by rewrite IH.
  - change (ToBoolean (VString (String a c))) with true. cbv iota.
    by rewrite bind_cons, IH.
Qed.

Example menu_item_class :
  classNames ["text-gray-500"; ""; "block px-4 py-2 text-sm"]
  = "text-gray-500 block px-4 py-2 text-sm".
Proof. reflexivity. Qed.

(** ** What a session shows *)

Lemma clicks_snoc (props : PageProps.t) (targets : list (FilterType * nat))
    (target : FilterType * nat) :
  clicks props (targets ++ [target]) = click props (clicks props targets) target.
Proof. unfold clicks. by rewrite fold_left_app. Qed.

Lemma click_shows (props : PageProps.t) (dom : Boxes * PageState Event)
    (target : FilterType * nat) :
  eventsToRender (snd dom) = getFilteredEvents (PageProps.events props) (snd dom) ->
  eventsToRender (snd (click props dom target))
  = getFilteredEvents (PageProps.events props) (snd (click props dom target)).
Proof.
  intros Hinv. destruct dom as [boxes st], target as [type i]. unfold click.
  destruct (optionValues props type !! i); [|done].
  by apply dispatch_shows.
Qed.

Lemma clicks_shows (props : PageProps.t) (targets : list (FilterType * nat)) :
  eventsToRender (snd (clicks props targets))
  = getFilteredEvents (PageProps.events props) (snd (clicks props targets)).
Proof.
  induction targets as [|target targets IH] using rev_ind.
  - apply renderEffect_shows.
  - rewrite clicks_snoc. by apply click_shows.
Qed.

Lemma selectedFilters_renderEffect (events : list Event)
    (st : PageState Event) :
  selectedFilters (renderEffect events st) = selectedFilters st.
Proof. reflexivity. Qed.

Lemma click_none (props : PageProps.t) (dom : Boxes * PageState Event)
    (type : FilterType) (i : nat) :
  optionValues props type !! i = None -> click props dom (type, i) = dom.
Proof. intros H. destruct dom. unfold click. by rewrite H. Qed.

Lemma click_some (props : PageProps.t) (boxes : Boxes) (st : PageState Event)
    (type : FilterType) (i : nat) (v : string) :
  optionValues props type !! i = Some v ->
  click props (boxes, st) (type, i)
  = (fun t j =>
       if bool_decide (t = type /\ j = i) then negb (boxes type i) else boxes t j,
     dispatch (PageProps.events props) st
              (FilterChanged v type (negb (boxes type i)))).
Proof. intros H. unfold click. by rewrite H. Qed.

(** X23: clicking the same checkbox twice brings back the events that were
    on display, when the options of each section are distinct. The list of
    the section may come back in another order: a value that was selected
    is removed and then put at the end. *)
Theorem double_click_restores_display (props : PageProps.t)
    (targets : list (FilterType * nat)) (target : FilterType * nat) :
  NoDup (PageProps.services props) ->
  NoDup (PageProps.domains props) ->
  eventsToRender (snd (clicks props (targets ++ [target; target])))
  = eventsToRender (snd (clicks props targets)).
Proof.
  intros Hsvc Hdom.
  change (targets ++ [target; target]) with (targets ++ [target] ++ [target]).
  rewrite app_assoc, !clicks_snoc.
  pose proof (checkboxes_mirror_invariant props targets Hsvc Hdom) as Hinv.
  pose proof (clicks_shows props targets) as Hshow.
  destruct (clicks props targets) as [boxes st], target as [type i].
  destruct (optionValues props type !! i) as [v|] eqn:Hv;
    [|by rewrite !click_none].
  rewrite (click_some _ _ _ _ _ v), (click_some _ _ _ _ _ v) by done.
  simpl in *. rewrite bool_decide_eq_true_2 by (split; reflexivity).
  rewrite Hshow.
  destruct (Hinv type) as (_ & _ & Hbox). specialize (Hbox i v Hv).
  simpl in Hbox.
  assert (forall t x,
            x ∈ getFilter
                  (selectedFilters
                     (handleFilterSelection v type (negb (negb (boxes type i)))
                        (renderEffect (PageProps.events props)
                           (handleFilterSelection v type (negb (boxes type i))
                                                  st)))) t
            <-> x ∈ getFilter (selectedFilters st) t) as Hmem.
  { intros t x. destruct (decide (t = type)) as [->|Hne].
    - rewrite toggle_members.
      rewrite (selectedFilters_renderEffect (PageProps.events props)).
      destruct (boxes type i) eqn:Hb; cbn [negb];
        rewrite toggle_members;
        destruct (decide (x = v)) as [->|]; intuition congruence.
    - rewrite toggle_other by done.
      rewrite (selectedFilters_renderEffect (PageProps.events props)).
      by rewrite toggle_other by done. }
  apply same_members_same_result.
  - intros x. apply (Hmem FServices).
  - intros x. apply (Hmem FDomains).
  - by destruct (boxes type i).
Qed.

Lemma double_click_restores_display_witness :
  eventsToRender
    (snd (clicks
            {| PageProps.events := catalog;
               PageProps.services := ["OrderService"; "BillingService"];
               PageProps.domains := ["Orders"] |}
            ([(FServices, 1%nat)] ++ [(FServices, 1%nat); (FServices, 1%nat)])))
  = eventsToRender
      (snd (clicks
              {| PageProps.events := catalog;
                 PageProps.services := ["OrderService"; "BillingService"];
                 PageProps.domains := ["Orders"] |}
              [(FServices, 1%nat)])).
Proof.
  apply (double_click_restores_display
           {| PageProps.events := catalog;
              PageProps.services := ["OrderService"; "BillingService"];
              PageProps.domains := ["Orders"] |}
           [(FServices, 1%nat)] (FServices, 1%nat)); simpl.
  - apply NoDup_cons. split; [|apply NoDup_singleton].
    intros H. apply list_elem_of_singleton in H. discriminate.
  - apply NoDup_singleton.
Defined.

(** The list itself need not come back. *)
Example double_click_reorders :
  services
    (selectedFilters
       (snd (clicks
               {| PageProps.events := catalog;
                  PageProps.services := ["OrderService"; "BillingService"];
                  PageProps.domains := [] |}
               [(FServices, 0%nat); (FServices, 1%nat);
                (FServices, 0%nat); (FServices, 0%nat)])))
  = ["BillingService"; "OrderService"].
Proof. reflexivity. Qed.

(** X24: in every state in which a session comes to rest, that is after the
    effect that follows a change has run, [No events found.] is on display
    exactly when no event satisfies every constraint in force: a selected
    producer or consumer if a service is selected, a selected domain if a
    domain is selected, and a name that contains the search text. *)
Theorem no_events_found_spec (events : list Event) (trace : list UiEvent) :
  noEventsFound (session events trace) = true
  <-> forall e,
        e ∈ events ->
        ~ ((services (selectedFilters (session events trace)) = []
            \/ inSelectedServices (session events trace) e)
           /\ (domains (selectedFilters (session events trace)) = []
               \/ inSelectedDomains (session events trace) e)
           /\ matchesSearch (session events trace) e).
Proof.
  pose proof (session_shows events trace) as Hinv.
  unfold noEventsFound. rewrite Hinv, Z.eqb_eq.
  split.
  - intros Hlen e He Hpass.
    assert (e ∈ getFilteredEvents events (session events trace)) as Hin
      by (apply getFilteredEvents_elem; tauto).
    destruct (getFilteredEvents events (session events trace));
      [by apply elem_of_nil in Hin | simpl in Hlen; lia].
  - intros Hnone.
    destruct (getFilteredEvents events (session events trace)) as [|e l] eqn:Hres;
      [done|].
    exfalso.
    assert (e ∈ getFilteredEvents events (session events trace)) as Hin
      by (rewrite Hres; left).
    apply getFilteredEvents_elem in Hin as (He & Hpass).
    by apply (Hnone e He).
Qed.
